(** * Spotify Top-50 extraction pipeline: a shallow embedding of
      [spotify_data.py] (class [Extractor]) and the properties of its
      locators, track joiner, aggregator and flattener.

    Python values are embedded as the inductive [value]; a raised exception
    is the [Err] branch of [result].  Methods of [Extractor] that talk to
    the catalog API run in a small state-and-error monad over an abstract
    world; [format_extracted_data] is a static method that touches neither
    the API nor the console and is embedded as a plain function, and once
    more with its list objects on the heap, to show that nothing is lost
    by that. *)

From Stdlib Require Import String Ascii List ZArith QArith Bool Lia.
Import ListNotations.
Close Scope Q_scope.
Open Scope string_scope.
Open Scope list_scope.

(** ** Python values and exceptions *)

(** What [response.json()] can produce, plus nothing else: the extractor only
    ever builds dicts, lists, strings and integers out of such values.
    Floats are only copied by the code, never computed on; they are carried
    as rationals.  A dict is kept as an association list in insertion order
    (Python dicts iterate in insertion order). *)
#[warnings="-register-all"]
Inductive value : Type :=
| VNone
| VBool (b : bool)
| VInt (z : Z)
| VFloat (q : Q)
| VStr (s : string)
| VList (l : list value)
| VDict (d : list (string * value)).

Definition dict := list (string * value).

Inductive exn : Type :=
| KeyError (key : string)
| TypeError
| AttributeError (name : string)
| RequestError (msg : string).

Inductive result (A : Type) : Type :=
| Ok (a : A)
| Err (e : exn).
Arguments Ok {A} a.
Arguments Err {A} e.

Definition rbind {A B} (r : result A) (k : A -> result B) : result B :=
  match r with
  | Ok a => k a
  | Err e => Err e
  end.

Declare Scope result_scope.
Delimit Scope result_scope with result.
Notation "'let?' x ':=' r 'in' k" := (rbind r (fun x => k))
  (at level 10, x name, r at level 100, k at level 200) : result_scope.

(** ** Strings *)

(** [needle in hay] for two Python strings.  Strings are UTF-8 byte
    sequences here; UTF-8 is self-synchronising, so a substring test on the
    bytes of well-formed strings agrees with the test on code points. *)
Fixpoint str_contains (needle hay : string) : bool :=
  String.prefix needle hay ||
  match hay with
  | EmptyString => false
  | String _ rest => str_contains needle rest
  end.

(** A byte [10xxxxxx] continues the code point started before it. *)
Definition is_continuation (c : ascii) : bool :=
  let n := nat_of_ascii c in (128 <=? n)%nat && (n <? 192)%nat.

(** The code points of a string, each as a one-character string: what
    iterating over a Python [str] yields. *)
Fixpoint str_chars (s : string) : list string :=
  match s with
  | EmptyString => []
  | String c rest =>
      match str_chars rest with
      | [] => [String c EmptyString]
      | ch :: chs =>
          match ch with
          | String c' _ =>
              if is_continuation c'
              then String c ch :: chs
              else String c EmptyString :: ch :: chs
          | EmptyString => String c EmptyString :: chs
          end
      end
  end.

(** ** Dicts, subscripting, iteration, [len], [in] *)

Fixpoint dict_lookup (k : string) (d : dict) : option value :=
  match d with
  | [] => None
  | (k', v) :: rest => if String.eqb k' k then Some v else dict_lookup k rest
  end.

(** [d[k] = v]: replaces the value in place when the key exists, appends a
    new entry otherwise. *)
Fixpoint dict_set (k : string) (v : value) (d : dict) : dict :=
  match d with
  | [] => [(k, v)]
  | (k', v') :: rest =>
      if String.eqb k' k then (k', v) :: rest
      else (k', v') :: dict_set k v rest
  end.

(** [d[k]] on a dict. *)
Definition dict_getitem (d : dict) (k : string) : result value :=
  match dict_lookup k d with
  | Some v => Ok v
  | None => Err (KeyError k)
  end.

(** [v[k]] for a string key [k]: a dict looks the key up and raises
    [KeyError] when it is absent; [None], numbers, strings and lists are
    not subscriptable by a string and raise [TypeError]. *)
Definition getitem (v : value) (k : string) : result value :=
  match v with
  | VDict d => dict_getitem d k
  | _ => Err TypeError
  end.

(** [for x in v]: the elements [v] yields. *)
Definition py_iter (v : value) : result (list value) :=
  match v with
  | VList l => Ok l
  | VStr s => Ok (map VStr (str_chars s))
  | VDict d => Ok (map (fun kv => VStr (fst kv)) d)
  | _ => Err TypeError
  end.

(** [len(v)]. *)
Definition py_len (v : value) : result Z :=
  match v with
  | VList l => Ok (Z.of_nat (length l))
  | VStr s => Ok (Z.of_nat (length (str_chars s)))
  | VDict d => Ok (Z.of_nat (length d))
  | _ => Err TypeError
  end.

Definition is_str (s : string) (v : value) : bool :=
  match v with
  | VStr s' => String.eqb s' s
  | _ => false
  end.

(** ["literal" in v] for a string literal on the left. *)
Definition py_in (needle : string) (v : value) : result bool :=
  match v with
  | VStr s => Ok (str_contains needle s)
  | VList l => Ok (existsb (is_str needle) l)
  | VDict d => Ok (existsb (fun kv => String.eqb (fst kv) needle) d)
  | _ => Err TypeError
  end.

(** ** The flattener: [Extractor.format_extracted_data] *)

(** [formatted_data]: column name to the list of values appended so far. *)
Definition columns := list (string * list value).

Fixpoint col_lookup (name : string) (fd : columns) : option (list value) :=
  match fd with
  | [] => None
  | (k, l) :: rest => if String.eqb k name then Some l else col_lookup name rest
  end.

Fixpoint col_push (name : string) (v : value) (fd : columns) : columns :=
  match fd with
  | [] => []
  | (k, l) :: rest =>
      if String.eqb k name then (k, l ++ [v]) :: rest
      else (k, l) :: col_push name v rest
  end.

(** [formatted_data[name].append(arg)]: the column is looked up first, then
    the argument is evaluated, then the value is appended. *)
Definition append_item (name : string) (arg : result value) (fd : columns)
  : result columns :=
  match col_lookup name fd with
  | None => Err (KeyError name)
  | Some _ =>
      match arg with
      | Ok v => Ok (col_push name v fd)
      | Err e => Err e
      end
  end.

(** [track[outer][inner]]. *)
Definition getitem2 (v : value) (outer inner : string) : result value :=
  (let? o := getitem v outer in getitem o inner)%result.

Definition column_names : list string :=
  [ "market"; "rank"; "name"; "artists"; "artists_followers"; "id"; "album";
    "release_date"; "popularity"; "acousticness"; "danceability";
    "duration_ms"; "energy"; "instrumentalness"; "liveness"; "loudness";
    "speechiness"; "tempo"; "valence"; "end_of_fade_in"; "start_of_fade_out";
    "sections_number"; "segments_number" ].

(** The dict literal that opens [format_extracted_data]. *)
Definition formatted_data_init : columns :=
  [ ("market", []); ("rank", []); ("name", []); ("artists", []);
    ("artists_followers", []); ("id", []); ("album", []);
    ("release_date", []); ("popularity", []); ("acousticness", []);
    ("danceability", []); ("duration_ms", []); ("energy", []);
    ("instrumentalness", []); ("liveness", []); ("loudness", []);
    ("speechiness", []); ("tempo", []); ("valence", []);
    ("end_of_fade_in", []); ("start_of_fade_out", []);
    ("sections_number", []); ("segments_number", []) ].

(** The body of the inner loop, for one track. *)
Definition append_row (country_code : string) (track_number : Z)
  (track : value) (fd : columns) : result columns :=
  (let? fd := append_item "market" (Ok (VStr country_code)) fd in
   let? fd := append_item "rank" (Ok (VInt track_number)) fd in
   let? fd := append_item "name" (getitem track "name") fd in
   let? fd := append_item "artists" (getitem track "artists") fd in
   let? fd := append_item "artists_followers"
                (getitem track "artists_followers") fd in
   let? fd := append_item "id" (getitem track "id") fd in
   let? fd := append_item "album" (getitem track "album") fd in
   let? fd := append_item "release_date" (getitem track "release_date") fd in
   let? fd := append_item "popularity" (getitem track "popularity") fd in
   let? fd := append_item "acousticness"
                (getitem2 track "features" "acousticness") fd in
   let? fd := append_item "danceability"
                (getitem2 track "features" "danceability") fd in
   let? fd := append_item "duration_ms"
                (getitem2 track "features" "duration_ms") fd in
   let? fd := append_item "energy" (getitem2 track "features" "energy") fd in
   let? fd := append_item "instrumentalness"
                (getitem2 track "features" "instrumentalness") fd in
   let? fd := append_item "liveness"
                (getitem2 track "features" "liveness") fd in
   let? fd := append_item "loudness"
                (getitem2 track "features" "loudness") fd in
   let? fd := append_item "speechiness"
                (getitem2 track "features" "speechiness") fd in
   let? fd := append_item "tempo" (getitem2 track "features" "tempo") fd in
   let? fd := append_item "valence"
                (getitem2 track "features" "valence") fd in
   let? fd := append_item "end_of_fade_in"
                (getitem2 track "analysis" "end_of_fade_in") fd in
   let? fd := append_item "start_of_fade_out"
                (getitem2 track "analysis" "start_of_fade_out") fd in
   let? fd := append_item "sections_number"
                (getitem2 track "analysis" "sections_number") fd in
   append_item "segments_number"
     (getitem2 track "analysis" "segments_number") fd)%result.

(** [for track in country_data[country_code]], with [track_number] counting
    up from the value it has on entry. *)
Fixpoint format_tracks (country_code : string) (track_number : Z)
  (tracks : list value) (fd : columns) : result columns :=
  match tracks with
  | [] => Ok fd
  | track :: rest =>
      (let? fd' := append_row country_code track_number track fd in
       format_tracks country_code (track_number + 1) rest fd')%result
  end.

(** [for country_code in country_data]: the keys in insertion order, each
    looked up again in [country_data]; [track_number] starts at 1. *)
Fixpoint format_markets (country_data : dict) (codes : list string)
  (fd : columns) : result columns :=
  match codes with
  | [] => Ok fd
  | country_code :: rest =>
      (let? chart := dict_getitem country_data country_code in
       let? tracks := py_iter chart in
       let? fd' := format_tracks country_code 1 tracks fd in
       format_markets country_data rest fd')%result
  end.

Definition format_extracted_data (country_data : dict) : result columns :=
  format_markets country_data (map fst country_data) formatted_data_init.

(** ** Row-wise reading of the flattener

    The table the flattener builds, described row by row: one row per
    (market, track) pair, with 23 cells in column order.  The loops above
    are shown to compute exactly its transpose. *)

Fixpoint getpath (v : value) (path : list string) : result value :=
  match path with
  | [] => Ok v
  | k :: rest => (let? o := getitem v k in getpath o rest)%result
  end.

(** Where each of the 21 track-derived columns is read from. *)
Definition field_paths : list (list string) :=
  [ ["name"]; ["artists"]; ["artists_followers"]; ["id"]; ["album"];
    ["release_date"]; ["popularity"];
    ["features"; "acousticness"]; ["features"; "danceability"];
    ["features"; "duration_ms"]; ["features"; "energy"];
    ["features"; "instrumentalness"]; ["features"; "liveness"];
    ["features"; "loudness"]; ["features"; "speechiness"];
    ["features"; "tempo"]; ["features"; "valence"];
    ["analysis"; "end_of_fade_in"]; ["analysis"; "start_of_fade_out"];
    ["analysis"; "sections_number"]; ["analysis"; "segments_number"] ].

Definition resolves (v : value) (path : list string) : bool :=
  match getpath v path with
  | Ok _ => true
  | Err _ => false
  end.

(** An enriched track: a dict in which every field the flattener reads is
    present. *)
Definition is_enriched_track (track : value) : bool :=
  forallb (resolves track) field_paths.

Definition cell (track : value) (path : list string) : value :=
  match getpath track path with
  | Ok v => v
  | Err _ => VNone
  end.

Definition row_of (country_code : string) (rank : Z) (track : value)
  : list value :=
  VStr country_code :: VInt rank :: map (cell track) field_paths.

Fixpoint market_rows (country_code : string) (rank : Z) (tracks : list value)
  : list (list value) :=
  match tracks with
  | [] => []
  | track :: rest =>
      row_of country_code rank track :: market_rows country_code (rank + 1) rest
  end.

Definition chart_tracks (chart : value) : list value :=
  match chart with
  | VList tracks => tracks
  | _ => []
  end.

Definition flat_rows (country_data : dict) : list (list value) :=
  concat (map (fun kv => market_rows (fst kv) 1 (chart_tracks (snd kv)))
              country_data).

(** Column [i] of a list of rows. *)
Definition column_of (rows : list (list value)) (i : nat) : list value :=
  map (fun row => nth i row VNone) rows.

Definition table_of (rows : list (list value)) : columns :=
  combine column_names (map (column_of rows) (seq 0 23)).

(** [sum(len(tracks) for tracks in charts.values())]. *)
Definition total_tracks (country_data : dict) : nat :=
  list_sum (map (fun kv => length (chart_tracks (snd kv))) country_data).

Fixpoint nodupb (l : list string) : bool :=
  match l with
  | [] => true
  | x :: rest => negb (existsb (String.eqb x) rest) && nodupb rest
  end.

Definition is_chart (chart : value) : bool :=
  match chart with
  | VList tracks => forallb is_enriched_track tracks
  | _ => false
  end.

(** A MarketChart mapping: distinct market codes, each mapped to a list of
    enriched tracks. *)
Definition is_market_charts (country_data : dict) : bool :=
  nodupb (map fst country_data) && forallb (fun kv => is_chart (snd kv)) country_data.

(** ** The catalog API and the monad of a run

    [SpotifyAPI] is an external collaborator: each method is an oracle that
    reads and advances an abstract world and returns the decoded JSON body,
    or raises.  A run also prints to the console and sleeps. *)

Record SpotifyAPI (W : Type) : Type := {
  get_playlists_from_category : value -> value -> W -> result value * W;
  get_tracks_from_playlist : value -> W -> result value * W;
  get_track_features : value -> W -> result value * W;
  get_track_audio_analysis : value -> W -> result value * W;
  get_artist_info : value -> W -> result value * W
}.
Arguments get_playlists_from_category {W} _ _ _ _.
Arguments get_tracks_from_playlist {W} _ _ _.
Arguments get_track_features {W} _ _ _.
Arguments get_track_audio_analysis {W} _ _ _.
Arguments get_artist_info {W} _ _ _.

Record run_state (W : Type) : Type := {
  world : W;
  console : list value;
  slept : Z
}.
Arguments world {W} _.
Arguments console {W} _.
Arguments slept {W} _.
Arguments Build_run_state {W} _ _ _.

Definition M (W A : Type) : Type := run_state W -> result A * run_state W.

Definition ret {W A} (a : A) : M W A := fun s => (Ok a, s).

Definition bind {W A B} (m : M W A) (k : A -> M W B) : M W B :=
  fun s =>
    match m s with
    | (Ok a, s') => k a s'
    | (Err e, s') => (Err e, s')
    end.

(** A computation that touches neither the world nor the console. *)
Definition lift {W A} (r : result A) : M W A := fun s => (r, s).

(** A call to one API method. *)
Definition call {W} (f : W -> result value * W) : M W value :=
  fun s =>
    let (r, w') := f (world s) in
    (r, Build_run_state w' (console s) (slept s)).

(** [print(v)]. *)
Definition print {W} (v : value) : M W unit :=
  fun s => (Ok tt, Build_run_state (world s) (console s ++ [v]) (slept s)).

(** [time.sleep(secs)]. *)
Definition sleep {W} (secs : Z) : M W unit :=
  fun s => (Ok tt, Build_run_state (world s) (console s) (slept s + secs)%Z).

Declare Scope run_scope.
Delimit Scope run_scope with run.
Notation "x <- m ;; k" := (bind m (fun x => k))
  (at level 61, m at next level, right associativity) : run_scope.
Notation "m ;;; k" := (bind m (fun _ => k))
  (at level 61, right associativity) : run_scope.

Definition CATEGORY_ID : value := VStr "toplists".

(** ** The locators *)

(** The loop of [extract_top50_global] over the listing's items.  [and]
    short-circuits, and every test subscripts the item anew. *)
Fixpoint scan_top50_global (items : list value) : result value :=
  match items with
  | [] => Ok VNone
  | item :: rest =>
      (let? name := getitem item "name" in
       let? has_top := py_in "Top 50" name in
       let? hit :=
         (if has_top
          then (let? name' := getitem item "name" in py_in "Świat" name')
          else Ok false) in
       if hit
       then (let? n := getitem item "name" in
             let? i := getitem item "id" in
             Ok (VDict [("name", n); ("id", i)]))
       else scan_top50_global rest)%result
  end.

Definition extract_top50_global {W} (api : SpotifyAPI W) (category_id : value)
  : M W value :=
  (playlists <- call (get_playlists_from_category api category_id (VStr "PL")) ;;
   lift (let? p := getitem playlists "playlists" in
         let? items := getitem p "items" in
         let? its := py_iter items in
         scan_top50_global its)%result)%run.

(** The loop of [extract_top50_playlist]. *)
Fixpoint scan_top50_playlist (items : list value) : result value :=
  match items with
  | [] => Ok VNone
  | item :: rest =>
      (let? d1 := getitem item "description" in
       let? most := py_in "most played tracks" d1 in
       let? no_global :=
         (if most
          then (let? d2 := getitem item "description" in
                let? g := py_in "Global" d2 in Ok (negb g))
          else Ok false) in
       let? hit :=
         (if no_global
          then (let? d3 := getitem item "description" in
                let? u := py_in "USA" d3 in Ok (negb u))
          else Ok false) in
       if hit
       then (let? n := getitem item "name" in
             let? i := getitem item "id" in
             Ok (VDict [("name", n); ("id", i)]))
       else scan_top50_playlist rest)%result
  end.

Definition extract_top50_playlist {W} (api : SpotifyAPI W)
  (category_id country_code : value) : M W value :=
  (playlists <- call (get_playlists_from_category api category_id country_code) ;;
   lift (let? p := getitem playlists "playlists" in
         let? items := getitem p "items" in
         let? its := py_iter items in
         scan_top50_playlist its)%result)%run.

(** ** The track joiner *)

Fixpoint rmapM {A B} (f : A -> result B) (l : list A) : result (list B) :=
  match l with
  | [] => Ok []
  | x :: rest =>
      (let? y := f x in
       let? ys := rmapM f rest in
       Ok (y :: ys))%result
  end.

(** The dict literal [track_data_dict = {...}] of [extract_playlist_tracks],
    its entries evaluated in the order they are written. *)
Definition track_data_dict_of (item : value) : result dict :=
  (let? t1 := getitem item "track" in
   let? name := getitem t1 "name" in
   let? t2 := getitem item "track" in
   let? arts := getitem t2 "artists" in
   let? artl := py_iter arts in
   let? names := rmapM (fun artist => getitem artist "name") artl in
   let? t3 := getitem item "track" in
   let? id := getitem t3 "id" in
   let? t4 := getitem item "track" in
   let? al4 := getitem t4 "album" in
   let? album := getitem al4 "name" in
   let? t5 := getitem item "track" in
   let? al5 := getitem t5 "album" in
   let? release_date := getitem al5 "release_date" in
   let? t6 := getitem item "track" in
   let? popularity := getitem t6 "popularity" in
   Ok [ ("name", name); ("artists", VList names); ("id", id);
        ("album", album); ("release_date", release_date);
        ("artists_followers", VList []); ("popularity", popularity) ])%result.

(** [d[k].append(arg)] for a dict [d] whose entry [k] should hold a list:
    the entry is looked up first, then the argument is evaluated. *)
Definition list_append (d : dict) (k : string) (arg : result value)
  : result dict :=
  match dict_lookup k d with
  | None => Err (KeyError k)
  | Some (VList l) =>
      match arg with
      | Ok v => Ok (dict_set k (VList (l ++ [v])) d)
      | Err e => Err e
      end
  | Some _ => Err (AttributeError "append")
  end.

(** [for artist in item['track']['artists']]: one artist lookup per artist,
    its follower count appended to [track_data_dict['artists_followers']]. *)
Fixpoint add_followers {W} (api : SpotifyAPI W) (artists : list value)
  (track_data_dict : dict) : M W dict :=
  match artists with
  | [] => ret track_data_dict
  | artist :: rest =>
      (artist_id <- lift (getitem artist "id") ;;
       artist_data <- call (get_artist_info api artist_id) ;;
       d' <- lift (list_append track_data_dict "artists_followers"
                     (let? f := getitem artist_data "followers" in
                      getitem f "total")%result) ;;
       add_followers api rest d')%run
  end.

(** [for item in tracks_raw_data['items']]. *)
Fixpoint join_items {W} (api : SpotifyAPI W) (items : list value)
  (tracks_final_data : list value) : M W (list value) :=
  match items with
  | [] => ret tracks_final_data
  | item :: rest =>
      (d <- lift (track_data_dict_of item) ;;
       artists <- lift (let? t := getitem item "track" in
                        let? a := getitem t "artists" in
                        py_iter a)%result ;;
       d' <- add_followers api artists d ;;
       join_items api rest (tracks_final_data ++ [VDict d']))%run
  end.

Definition extract_playlist_tracks {W} (api : SpotifyAPI W)
  (playlist_id : value) : M W (list value) :=
  (tracks_raw_data <- call (get_tracks_from_playlist api playlist_id) ;;
   items <- lift (let? i := getitem tracks_raw_data "items" in py_iter i)%result ;;
   join_items api items [])%run.

Definition feature_keys : list string :=
  [ "acousticness"; "danceability"; "duration_ms"; "energy";
    "instrumentalness"; "liveness"; "loudness"; "speechiness"; "tempo";
    "valence" ].

Definition extract_track_features {W} (api : SpotifyAPI W) (track_id : value)
  : M W value :=
  (features <- call (get_track_features api track_id) ;;
   lift (let? acousticness := getitem features "acousticness" in
         let? danceability := getitem features "danceability" in
         let? duration_ms := getitem features "duration_ms" in
         let? energy := getitem features "energy" in
         let? instrumentalness := getitem features "instrumentalness" in
         let? liveness := getitem features "liveness" in
         let? loudness := getitem features "loudness" in
         let? speechiness := getitem features "speechiness" in
         let? tempo := getitem features "tempo" in
         let? valence := getitem features "valence" in
         Ok (VDict [ ("acousticness", acousticness);
                     ("danceability", danceability);
                     ("duration_ms", duration_ms);
                     ("energy", energy);
                     ("instrumentalness", instrumentalness);
                     ("liveness", liveness);
                     ("loudness", loudness);
                     ("speechiness", speechiness);
                     ("tempo", tempo);
                     ("valence", valence) ]))%result)%run.

Definition extract_track_audio_analysis {W} (api : SpotifyAPI W)
  (track_id : value) : M W value :=
  (analysis <- call (get_track_audio_analysis api track_id) ;;
   lift (let? t1 := getitem analysis "track" in
         let? end_of_fade_in := getitem t1 "end_of_fade_in" in
         let? t2 := getitem analysis "track" in
         let? start_of_fade_out := getitem t2 "start_of_fade_out" in
         let? sections := getitem analysis "sections" in
         let? sections_number := py_len sections in
         let? segments := getitem analysis "segments" in
         let? segments_number := py_len segments in
         Ok (VDict [ ("end_of_fade_in", end_of_fade_in);
                     ("start_of_fade_out", start_of_fade_out);
                     ("sections_number", VInt sections_number);
                     ("segments_number", VInt segments_number) ]))%result)%run.

(** [d[k] = v] on a value. *)
Definition setitem (d : value) (k : string) (v : value) : result value :=
  match d with
  | VDict entries => Ok (VDict (dict_set k v entries))
  | _ => Err TypeError
  end.

(** [add_tracks_information]: the track dicts are updated in place and the
    same list is returned; the list comes fresh from
    [extract_playlist_tracks], so the updated list is all that is observable. *)
Fixpoint add_tracks_information {W} (api : SpotifyAPI W) (tracks : list value)
  : M W (list value) :=
  match tracks with
  | [] => ret []
  | track :: rest =>
      (id1 <- lift (getitem track "id") ;;
       features <- extract_track_features api id1 ;;
       track1 <- lift (setitem track "features" features) ;;
       id2 <- lift (getitem track1 "id") ;;
       analysis <- extract_track_audio_analysis api id2 ;;
       track2 <- lift (setitem track1 "analysis" analysis) ;;
       rest' <- add_tracks_information api rest ;;
       ret (track2 :: rest'))%run
  end.

(** ** The aggregator *)

Definition banner : string :=
  "********************  DATA EXTRACTED  ********************".

(** One pass of [for country in countries]. *)
Definition extract_country {W} (api : SpotifyAPI W) (country : string)
  (country_data : dict) : M W dict :=
  (top50_playlist <- extract_top50_playlist api CATEGORY_ID (VStr country) ;;
   name <- lift (getitem top50_playlist "name") ;;
   print name ;;;
   id <- lift (getitem top50_playlist "id") ;;
   tracks <- extract_playlist_tracks api id ;;
   tracks' <- add_tracks_information api tracks ;;
   let country_data' := dict_set country (VList tracks') country_data in
   sleep 2 ;;;
   ret country_data')%run.

Fixpoint extract_countries {W} (api : SpotifyAPI W) (countries : list string)
  (country_data : dict) : M W dict :=
  match countries with
  | [] => ret country_data
  | country :: rest =>
      (country_data' <- extract_country api country country_data ;;
       extract_countries api rest country_data')%run
  end.

(** The statements of [extract_raw_data] before its loop: the global chart
    goes into the fresh [country_data] under ["GLOBAL"]. *)
Definition extract_global {W} (api : SpotifyAPI W) : M W dict :=
  (top50_global <- extract_top50_global api CATEGORY_ID ;;
   id <- lift (getitem top50_global "id") ;;
   tracks <- extract_playlist_tracks api id ;;
   name <- lift (getitem top50_global "name") ;;
   print name ;;;
   tracks' <- add_tracks_information api tracks ;;
   ret (dict_set "GLOBAL" (VList tracks') []))%run.

Definition extract_raw_data {W} (api : SpotifyAPI W) (countries : list string)
  : M W dict :=
  (country_data <- extract_global api ;;
   country_data' <- extract_countries api countries country_data ;;
   print (VStr banner) ;;;
   ret country_data')%run.

(** ** Reading the flattened table *)

(** The (rank, id) cells of the rows whose market cell is [country_code],
    in row order. *)
Definition market_ranking (country_code : string) (fd : columns)
  : list (value * value) :=
  match col_lookup "market" fd, col_lookup "rank" fd, col_lookup "id" fd with
  | Some markets, Some ranks, Some ids =>
      map snd (filter (fun row => is_str country_code (fst row))
                      (combine markets (combine ranks ids)))
  | _, _, _ => []
  end.

(** Whether a row belongs to the market [country_code]. *)
Definition row_market_is (country_code : string) (row : list value) : bool :=
  is_str country_code (nth 0 row VNone).

(** The ranks [1, 2, ..., n]. *)
Definition ranks_upto (n : nat) : list value :=
  map (fun i => VInt (Z.of_nat i)) (seq 1 n).

(** [len(artists) == len(artists_followers)] for two cells or fields. *)
Definition same_length (artists followers : value) : Prop :=
  exists names counts,
    artists = VList names /\ followers = VList counts /\
    length names = length counts.

(** A track record whose two artist lists are aligned. *)
Definition followers_aligned (track : value) : Prop :=
  exists artists followers,
    getitem track "artists" = Ok artists /\
    getitem track "artists_followers" = Ok followers /\
    same_length artists followers.

(** ** Reading a playlist listing *)

(** The string stored under [key] in [item], if there is one. *)
Definition str_field (item : value) (key : string) : option string :=
  match getitem item key with
  | Ok (VStr s) => Some s
  | _ => None
  end.

(** An item of a category listing as the API documents it: [name] and
    [description] are strings and [id] is present. *)
Definition is_playlist_item (item : value) : bool :=
  match str_field item "name", str_field item "description" with
  | Some _, Some _ => resolves item ["id"]
  | _, _ => false
  end.

(** The selection predicate of the global locator. *)
Definition global_hit (item : value) : bool :=
  match str_field item "name" with
  | Some name => str_contains "Top 50" name && str_contains "Świat" name
  | None => false
  end.

(** The selection predicate of the per-market locator. *)
Definition market_hit (item : value) : bool :=
  match str_field item "description" with
  | Some d =>
      str_contains "most played tracks" d
      && negb (str_contains "Global" d)
      && negb (str_contains "USA" d)
  | None => false
  end.

(** The [{name, id}] reference to an item. *)
Definition playlist_ref (item : value) : value :=
  VDict [("name", cell item ["name"]); ("id", cell item ["id"])].

(** What a locator returns for the outcome of a search. *)
Definition located (hit : option value) : value :=
  match hit with
  | Some item => playlist_ref item
  | None => VNone
  end.

(** The state a run is in after an API call that left the world at [w]. *)
Definition after_call {W} (s : run_state W) (w : W) : run_state W :=
  Build_run_state w (console s) (slept s).

(** ** Expected keys *)


(** The paths [extract_track_features] reads in an audio-features response. *)
Definition features_paths : list (list string) :=
  map (fun key => [key]) feature_keys.



(** The path [extract_playlist_tracks] reads in an artist response. *)
Definition followers_path : list string := ["followers"; "total"].




(** ** Further notions for the flattener *)

(** All tracks of a mapping, market after market, each chart in its order. *)
Definition all_tracks (country_data : dict) : list value :=
  flat_map (fun kv => chart_tracks (snd kv)) country_data.

(** Each market code repeated once per track of its chart. *)
Definition market_column (country_data : dict) : list value :=
  flat_map (fun kv => repeat (VStr (fst kv)) (length (chart_tracks (snd kv))))
           country_data.

(** ** Further notions for the joiner and the aggregator *)

(** The keys of the dict literal in [extract_playlist_tracks]. *)
Definition track_keys : list string :=
  [ "name"; "artists"; "id"; "album"; "release_date"; "artists_followers";
    "popularity" ].

(** [track] is the record built from playlist item [item]: a dict with the
    seven keys of the literal, its scalar fields copied from the item. *)
Definition built_from (item track : value) : Prop :=
  exists d,
    track = VDict d /\
    map fst d = track_keys /\
    getitem track "name" = getpath item ["track"; "name"] /\
    getitem track "id" = getpath item ["track"; "id"] /\
    getitem track "album" = getpath item ["track"; "album"; "name"] /\
    getitem track "release_date"
      = getpath item ["track"; "album"; "release_date"] /\
    getitem track "popularity" = getpath item ["track"; "popularity"].

(** The keys of the summary built by [extract_track_audio_analysis]. *)
Definition analysis_keys : list string :=
  [ "end_of_fade_in"; "start_of_fade_out"; "sections_number";
    "segments_number" ].

(** [track'] is [track] after [add_tracks_information]: every other entry
    is as before, [features] holds the ten audio features and [analysis]
    the four-entry summary. *)
Definition enriched_from (track track' : value) : Prop :=
  (forall k, k <> "features" -> k <> "analysis" ->
             getitem track' k = getitem track k) /\
  (exists f, getitem track' "features" = Ok (VDict f) /\
             map fst f = feature_keys) /\
  (exists a, getitem track' "analysis" = Ok (VDict a) /\
             map fst a = analysis_keys).

(** The artist entries the follower loop visits for a playlist item. *)
Definition item_artists (item : value) : list value :=
  match (let? t := getitem item "track" in
         let? a := getitem t "artists" in
         py_iter a)%result with
  | Ok artists => artists
  | Err _ => []
  end.

(** The follower loop over [artists], started in state [s]: artist after
    artist the artist endpoint is asked for the entry's id, in the world
    the previous request left, and answers with the next count. *)
Inductive followers_run {W} (api : SpotifyAPI W)
  : list value -> run_state W -> list value -> run_state W -> Prop :=
| followers_done (s : run_state W) : followers_run api [] s [] s
| followers_step (artist : value) (artists : list value) (s : run_state W)
    (artist_id resp : value) (w' : W) (count : value) (counts : list value)
    (s' : run_state W) :
    getitem artist "id" = Ok artist_id ->
    get_artist_info api artist_id (world s) = (Ok resp, w') ->
    getpath resp followers_path = Ok count ->
    followers_run api artists (after_call s w') counts s' ->
    followers_run api (artist :: artists) s (count :: counts) s'.

(** The records the joiner builds for the playlist items [items], started
    in state [s]: the record of each item lists the names of the item's
    artist entries and, in the same order, the counts the follower loop
    obtained for these very entries. *)
Inductive joined_run {W} (api : SpotifyAPI W)
  : list value -> run_state W -> list value -> run_state W -> Prop :=
| joined_done (s : run_state W) : joined_run api [] s [] s
| joined_step (item : value) (items : list value) (s : run_state W)
    (track : value) (tracks : list value) (names counts : list value)
    (s1 s' : run_state W) :
    getitem track "artists" = Ok (VList names) ->
    Forall2 (fun artist name => getitem artist "name" = Ok name)
            (item_artists item) names ->
    getitem track "artists_followers" = Ok (VList counts) ->
    followers_run api (item_artists item) s counts s1 ->
    joined_run api items s1 tracks s' ->
    joined_run api (item :: items) s (track :: tracks) s'.

(** The requests a run sends to the catalog. *)
Inductive request : Type :=
| ReqPlaylists (category_id country_code : value)
| ReqTracks (playlist_id : value)
| ReqFeatures (song_id : value)
| ReqAnalysis (song_id : value)
| ReqArtist (artist_id : value).

(** An API method that also appends its request to a log kept beside the
    world. *)
Definition record {W} (f : W -> result value * W) (r : request)
  : W * list request -> result value * (W * list request) :=
  fun wl =>
    let (res, w') := f (fst wl) in
    (res, (w', snd wl ++ [r])).

(** Any catalog, instrumented to log the requests it receives. *)
Definition logged {W} (api : SpotifyAPI W) : SpotifyAPI (W * list request) := {|
  get_playlists_from_category := fun category_id country_code =>
    record (get_playlists_from_category api category_id country_code)
           (ReqPlaylists category_id country_code);
  get_tracks_from_playlist := fun playlist_id =>
    record (get_tracks_from_playlist api playlist_id) (ReqTracks playlist_id);
  get_track_features := fun song_id =>
    record (get_track_features api song_id) (ReqFeatures song_id);
  get_track_audio_analysis := fun song_id =>
    record (get_track_audio_analysis api song_id) (ReqAnalysis song_id);
  get_artist_info := fun artist_id =>
    record (get_artist_info api artist_id) (ReqArtist artist_id)
|}.

(** The log of a run over an instrumented catalog. *)
Definition requests {W} (s : run_state (W * list request)) : list request :=
  snd (world s).

(** The request the follower loop sends for an artist entry. *)
Definition artist_request (artist : value) : request :=
  ReqArtist (cell artist ["id"]).

(** The two requests [add_tracks_information] sends for a track. *)
Definition track_requests (track : value) : list request :=
  [ReqFeatures (cell track ["id"]); ReqAnalysis (cell track ["id"])].

(** A computation that neither prints nor sleeps, whatever it returns. *)
Definition quiet {W A} (m : M W A) : Prop :=
  forall s r s', m s = (r, s') -> console s' = console s /\ slept s' = slept s.

(** The keys of a dict after assigning to [keys] one after the other,
    starting from a dict with keys [present]: a key takes its place at its
    first assignment and keeps it. *)
Fixpoint insertion_order (present keys : list string) : list string :=
  match keys with
  | [] => present
  | k :: rest =>
      insertion_order
        (if existsb (String.eqb k) present then present else present ++ [k])
        rest
  end.

(** The state after [print(v)]. *)
Definition printed {W} (s : run_state W) (v : value) : run_state W :=
  Build_run_state (world s) (console s ++ [v]) (slept s).

(** The state after [time.sleep(secs)]. *)
Definition rested {W} (s : run_state W) (secs : Z) : run_state W :=
  Build_run_state (world s) (console s) (slept s + secs)%Z.

(** A mapping from distinct market codes to charts of enriched tracks, as a
    proposition. *)
Definition charts_ok (country_data : dict) : Prop :=
  NoDup (map fst country_data) /\
  Forall (fun kv => is_chart (snd kv) = true) country_data.

(** ** The flattener with its list objects on the heap

    [format_extracted_data] once more, this time with what Python keeps
    outside the function in view: the heap of list objects and the
    console.  Every [[]] of the dict literal allocates a new list object,
    [formatted_data] maps each column name to the address of its list, and
    [.append] updates the object at that address in place.  The caller gets
    the dict of addresses back and reads the columns through it. *)

Record pystate : Type := {
  heap : list (list value);
  stdout : list value
}.

Definition P (A : Type) : Type := pystate -> result A * pystate.

Definition pret {A} (a : A) : P A := fun st => (Ok a, st).

Definition pbind {A B} (m : P A) (k : A -> P B) : P B :=
  fun st =>
    match m st with
    | (Ok a, st') => k a st'
    | (Err e, st') => (Err e, st')
    end.

Definition plift {A} (r : result A) : P A := fun st => (r, st).

Declare Scope heap_scope.
Delimit Scope heap_scope with heap.
Notation "x <- m ;; k" := (pbind m (fun x => k))
  (at level 61, m at next level, right associativity) : heap_scope.
Notation "m ;;; k" := (pbind m (fun _ => k))
  (at level 61, right associativity) : heap_scope.

(** [[]]: a new, empty list object; its address is returned. *)
Definition new_list : P nat :=
  fun st =>
    (Ok (length (heap st)),
     {| heap := heap st ++ [[]]; stdout := stdout st |}).

(** The heap after [.append(v)] on the list object at address [a]. *)
Fixpoint heap_append (a : nat) (v : value) (h : list (list value))
  : list (list value) :=
  match h, a with
  | [], _ => []
  | l :: rest, O => (l ++ [v]) :: rest
  | l :: rest, S a' => l :: heap_append a' v rest
  end.

(** [formatted_data] as Python holds it: column name to list address. *)
Definition column_refs := list (string * nat).

Fixpoint ref_lookup (name : string) (fd : column_refs) : option nat :=
  match fd with
  | [] => None
  | (k, a) :: rest => if String.eqb k name then Some a else ref_lookup name rest
  end.

(** The dict literal: one new list per key, in the order written. *)
Fixpoint new_columns (names : list string) : P column_refs :=
  match names with
  | [] => pret []
  | name :: rest =>
      (a <- new_list ;;
       fd <- new_columns rest ;;
       pret ((name, a) :: fd))%heap
  end.

(** [formatted_data[name].append(arg)] on the heap. *)
Definition append_ref (name : string) (arg : result value) (fd : column_refs)
  : P unit :=
  fun st =>
    match ref_lookup name fd with
    | None => (Err (KeyError name), st)
    | Some a =>
        match arg with
        | Ok v => (Ok tt, {| heap := heap_append a v (heap st);
                             stdout := stdout st |})
        | Err e => (Err e, st)
        end
    end.

Definition append_row_heap (country_code : string) (track_number : Z)
  (track : value) (fd : column_refs) : P unit :=
  (append_ref "market" (Ok (VStr country_code)) fd ;;;
   append_ref "rank" (Ok (VInt track_number)) fd ;;;
   append_ref "name" (getitem track "name") fd ;;;
   append_ref "artists" (getitem track "artists") fd ;;;
   append_ref "artists_followers" (getitem track "artists_followers") fd ;;;
   append_ref "id" (getitem track "id") fd ;;;
   append_ref "album" (getitem track "album") fd ;;;
   append_ref "release_date" (getitem track "release_date") fd ;;;
   append_ref "popularity" (getitem track "popularity") fd ;;;
   append_ref "acousticness" (getitem2 track "features" "acousticness") fd ;;;
   append_ref "danceability" (getitem2 track "features" "danceability") fd ;;;
   append_ref "duration_ms" (getitem2 track "features" "duration_ms") fd ;;;
   append_ref "energy" (getitem2 track "features" "energy") fd ;;;
   append_ref "instrumentalness"
     (getitem2 track "features" "instrumentalness") fd ;;;
   append_ref "liveness" (getitem2 track "features" "liveness") fd ;;;
   append_ref "loudness" (getitem2 track "features" "loudness") fd ;;;
   append_ref "speechiness" (getitem2 track "features" "speechiness") fd ;;;
   append_ref "tempo" (getitem2 track "features" "tempo") fd ;;;
   append_ref "valence" (getitem2 track "features" "valence") fd ;;;
   append_ref "end_of_fade_in"
     (getitem2 track "analysis" "end_of_fade_in") fd ;;;
   append_ref "start_of_fade_out"
     (getitem2 track "analysis" "start_of_fade_out") fd ;;;
   append_ref "sections_number"
     (getitem2 track "analysis" "sections_number") fd ;;;
   append_ref "segments_number"
     (getitem2 track "analysis" "segments_number") fd)%heap.

Fixpoint format_tracks_heap (country_code : string) (track_number : Z)
  (tracks : list value) (fd : column_refs) : P unit :=
  match tracks with
  | [] => pret tt
  | track :: rest =>
      (append_row_heap country_code track_number track fd ;;;
       format_tracks_heap country_code (track_number + 1) rest fd)%heap
  end.

Fixpoint format_markets_heap (country_data : dict) (codes : list string)
  (fd : column_refs) : P unit :=
  match codes with
  | [] => pret tt
  | country_code :: rest =>
      (chart <- plift (dict_getitem country_data country_code) ;;
       tracks <- plift (py_iter chart) ;;
       format_tracks_heap country_code 1 tracks fd ;;;
       format_markets_heap country_data rest fd)%heap
  end.

Definition format_extracted_data_heap (country_data : dict) : P column_refs :=
  (formatted_data <- new_columns column_names ;;
   format_markets_heap country_data (map fst country_data) formatted_data ;;;
   pret formatted_data)%heap.

(** The columns a caller reads through the returned dict. *)
Definition deref (h : list (list value)) (fd : column_refs) : columns :=
  map (fun kr => (fst kr, nth (snd kr) h [])) fd.

(** The addresses of [fd] are distinct and point into the heap. *)
Definition refs_ok (fd : column_refs) (h : list (list value)) : Prop :=
  NoDup (map snd fd) /\ Forall (fun kr => (snd kr < length h)%nat) fd.

(** The heap computation [m] does to the lists of [fd] what [f] does to
    the columns, touches no other list object and prints nothing. *)
Definition simulates (fd : column_refs) (m : P unit)
  (f : columns -> result columns) : Prop :=
  forall st,
    refs_ok fd (heap st) ->
    exists h',
      length h' = length (heap st) /\
      (forall b, ~ In b (map snd fd) -> nth b h' [] = nth b (heap st) []) /\
      match f (deref (heap st) fd) with
      | Ok cols =>
          m st = (Ok tt, {| heap := h'; stdout := stdout st |}) /\
          deref h' fd = cols
      | Err e => m st = (Err e, {| heap := h'; stdout := stdout st |})
      end.

(** ** Sample data *)

Definition sample_features : value :=
  VDict [ ("acousticness", VFloat (1 # 10)); ("danceability", VFloat (7 # 10));
          ("duration_ms", VInt 200000); ("energy", VFloat (8 # 10));
          ("instrumentalness", VFloat 0); ("liveness", VFloat (1 # 10));
          ("loudness", VFloat (-5 # 1)); ("speechiness", VFloat (1 # 20));
          ("tempo", VFloat (120 # 1)); ("valence", VFloat (1 # 2)) ].

Definition sample_analysis : value :=
  VDict [ ("end_of_fade_in", VFloat (1 # 5));
          ("start_of_fade_out", VFloat (180 # 1));
          ("sections_number", VInt 5); ("segments_number", VInt 50) ].

Definition sample_track (id name : string) (artists : list string)
  (followers : list Z) : value :=
  VDict [ ("name", VStr name); ("artists", VList (map VStr artists));
          ("id", VStr id); ("album", VStr "Alb"); ("release_date", VStr "2020");
          ("artists_followers", VList (map VInt followers));
          ("popularity", VInt 80);
          ("features", sample_features); ("analysis", sample_analysis) ].

Definition sample_charts : dict :=
  [ ("GLOBAL", VList [ sample_track "a" "Song A" ["X"] [100%Z];
                       sample_track "b" "Song B" ["X"; "Y"] [100%Z; 7%Z] ]);
    ("PL", VList [ sample_track "b" "Song B" ["X"; "Y"] [100%Z; 7%Z] ]) ].

Definition sample_item (name id description : string) : value :=
  VDict [("name", VStr name); ("id", VStr id); ("description", VStr description)].

(** The listing of the specification's global-selection scenario. *)
Definition sample_global_items : list value :=
  [ sample_item "Top 50 - USA" "p1" "Your daily update of the most played tracks right now - USA.";
    sample_item "Top 50 - Świat" "p2" "Your daily update of the most played tracks right now - Global." ].

(** The listing of the specification's per-market scenario. *)
Definition sample_market_items : list value :=
  [ sample_item "Top 50 - Global" "p2" "Your daily update of the most played tracks right now - Global.";
    sample_item "Top 50 - Germany" "p3" "Your daily update of the most played tracks in Germany." ].

Definition listing_of (items : list value) : value :=
  VDict [("playlists", VDict [("items", VList items)])].

Definition sample_artist (id name : string) : value :=
  VDict [("id", VStr id); ("name", VStr name)].

Definition sample_playlist_entry (id name : string) (artists : list value)
  : value :=
  VDict [("track",
          VDict [ ("id", VStr id); ("name", VStr name); ("popularity", VInt 80);
                  ("artists", VList artists);
                  ("album", VDict [ ("name", VStr "Alb");
                                    ("release_date", VStr "2020") ]) ])].

Definition sample_playlist : value :=
  VDict [("items",
          VList [ sample_playlist_entry "a" "Song A" [sample_artist "x" "X"];
                  sample_playlist_entry "b" "Song B"
                    [sample_artist "x" "X"; sample_artist "y" "Y"] ])].

Definition sample_artist_info (artist_id : value) : value :=
  VDict [("followers",
          VDict [ ("href", VNone);
                  ("total", VInt (if is_str "x" artist_id then 100 else 7)) ])].

Definition sample_audio_analysis : value :=
  VDict [ ("track", VDict [ ("end_of_fade_in", VFloat (1 # 5));
                           ("start_of_fade_out", VFloat (180 # 1)) ]);
          ("sections", VList [VDict []; VDict []]);
          ("segments", VList [VDict []; VDict []; VDict []]) ].

(** A catalog that answers every request; its world counts the calls. *)
Definition sample_api : SpotifyAPI nat := {|
  get_playlists_from_category := fun _ country_code w =>
    (Ok (listing_of (if is_str "PL" country_code
                     then sample_global_items
                     else sample_market_items)), S w);
  get_tracks_from_playlist := fun _ w => (Ok sample_playlist, S w);
  get_track_features := fun _ w => (Ok sample_features, S w);
  get_track_audio_analysis := fun _ w => (Ok sample_audio_analysis, S w);
  get_artist_info := fun artist_id w => (Ok (sample_artist_info artist_id), S w)
|}.

Definition sample_start : run_state nat := Build_run_state 0%nat [] 0.





(** A catalog in which no chart can be located: its only playlist is the
    USA chart. *)
Definition miss_items : list value :=
  [ sample_item "Top 50 - USA" "p1"
      "Your daily update of the most played tracks right now - USA." ].

Definition miss_api : SpotifyAPI nat := {|
  get_playlists_from_category := fun _ _ w => (Ok (listing_of miss_items), S w);
  get_tracks_from_playlist := get_tracks_from_playlist sample_api;
  get_track_features := get_track_features sample_api;
  get_track_audio_analysis := get_track_audio_analysis sample_api;
  get_artist_info := get_artist_info sample_api
|}.

(** A catalog that lists the global chart under PL and nothing usable under
    any other market. *)
Definition market_miss_api : SpotifyAPI nat := {|
  get_playlists_from_category := fun _ country_code w =>
    (Ok (listing_of (if is_str "PL" country_code
                     then sample_global_items
                     else miss_items)), S w);
  get_tracks_from_playlist := get_tracks_from_playlist sample_api;
  get_track_features := get_track_features sample_api;
  get_track_audio_analysis := get_track_audio_analysis sample_api;
  get_artist_info := get_artist_info sample_api
|}.

(** A mapping whose second track has no audio analysis. *)
Definition sample_bare_track : value :=
  VDict [ ("name", VStr "Song C"); ("artists", VList [VStr "Z"]);
          ("id", VStr "c"); ("album", VStr "Alb"); ("release_date", VStr "2021");
          ("artists_followers", VList [VInt 3]); ("popularity", VInt 10);
          ("features", sample_features) ].

Definition sample_bare_charts : dict :=
  [ ("GLOBAL", VList [ sample_track "a" "Song A" ["X"] [100%Z];
                       sample_bare_track ]) ].

(** A record as the joiner builds it, before enrichment. *)
Definition sample_track_record (id name : string) (artists : list string)
  (followers : list Z) : value :=
  VDict [ ("name", VStr name); ("artists", VList (map VStr artists));
          ("id", VStr id); ("album", VStr "Alb"); ("release_date", VStr "2020");
          ("artists_followers", VList (map VInt followers));
          ("popularity", VInt 80) ].

(** A catalog that cannot be reached. *)
Definition down_api : SpotifyAPI nat := {|
  get_playlists_from_category := fun _ _ w =>
    (Err (RequestError "connection refused"), S w);
  get_tracks_from_playlist := fun _ w =>
    (Err (RequestError "connection refused"), S w);
  get_track_features := fun _ w =>
    (Err (RequestError "connection refused"), S w);
  get_track_audio_analysis := fun _ w =>
    (Err (RequestError "connection refused"), S w);
  get_artist_info := fun _ w =>
    (Err (RequestError "connection refused"), S w)
|}.

(** A listing whose first playlist has no description. *)
Definition sample_null_description_items : list value :=
  [ VDict [("name", VStr "Top Songs"); ("id", VStr "p0");
           ("description", VNone)];
    sample_item "Top 50 - Germany" "p3"
      "Your daily update of the most played tracks in Germany." ].

(** The body the catalog sends with an error status. *)
Definition error_payload : dict :=
  [("error", VDict [ ("status", VInt 401);
                     ("message", VStr "Invalid access token") ])].

(** A catalog that answers every request with that body. *)
Definition error_api : SpotifyAPI nat := {|
  get_playlists_from_category := fun _ _ w => (Ok (VDict error_payload), S w);
  get_tracks_from_playlist := fun _ w => (Ok (VDict error_payload), S w);
  get_track_features := fun _ w => (Ok (VDict error_payload), S w);
  get_track_audio_analysis := fun _ w => (Ok (VDict error_payload), S w);
  get_artist_info := fun _ w => (Ok (VDict error_payload), S w)
|}.

(** A playlist whose second entry has no track (the catalog sends [null]
    for a track that is no longer available). *)
Definition sample_null_track_items : list value :=
  [ sample_playlist_entry "a" "Song A" [sample_artist "x" "X"];
    VDict [("track", VNone)] ].

Definition null_track_api : SpotifyAPI nat := {|
  get_playlists_from_category := get_playlists_from_category sample_api;
  get_tracks_from_playlist := fun _ w =>
    (Ok (VDict [("items", VList sample_null_track_items)]), S w);
  get_track_features := get_track_features sample_api;
  get_track_audio_analysis := get_track_audio_analysis sample_api;
  get_artist_info := get_artist_info sample_api
|}.




(** * Properties *)

(** ** Lookups in a dict with distinct keys *)

Lemma nodupb_NoDup (l : list string) : nodupb l = true -> NoDup l.
Proof.
  induction l as [|x l IH]; simpl; intros H.
  - constructor.
  - apply andb_true_iff in H as [Hx Hl].
    constructor; [|auto].
    intros Hin. apply negb_true_iff in Hx.
    assert (existsb (String.eqb x) l = true) as E.
    { apply existsb_exists. exists x. split; [assumption|apply String.eqb_refl]. }
    congruence.
Qed.

Lemma dict_lookup_in (d : dict) (k : string) (v : value) :
  NoDup (map fst d) -> In (k, v) d -> dict_lookup k d = Some v.
Proof.
  induction d as [|[k' v'] d IH]; simpl; intros Hnd Hin; [contradiction|].
  inversion Hnd as [|? ? Hnotin Hnd']; subst.
  destruct Hin as [Heq|Hin].
  - inversion Heq; subst. now rewrite String.eqb_refl.
  - destruct (String.eqb_spec k' k) as [->|_].
    + exfalso. apply Hnotin. apply in_map_iff. now exists (k, v).
    + auto.
Qed.

(** ** One row *)

Lemma resolves_field (track : value) (k : string) :
  resolves track [k] = true -> getitem track k = Ok (cell track [k]).
Proof.
  unfold resolves, cell. simpl.
  destruct (getitem track k); simpl; [reflexivity|discriminate].
Qed.

Lemma resolves_nested (track : value) (outer inner : string) :
  resolves track [outer; inner] = true ->
  getitem2 track outer inner = Ok (cell track [outer; inner]).
Proof.
  unfold resolves, cell, getitem2. simpl.
  destruct (getitem track outer) as [o|]; simpl; [|discriminate].
  destruct (getitem o inner); simpl; [reflexivity|discriminate].
Qed.

Lemma column_of_snoc (rows : list (list value)) (row : list value) (i : nat) :
  column_of (rows ++ [row]) i = column_of rows i ++ [nth i row VNone].
Proof. unfold column_of. now rewrite map_app. Qed.

Arguments cell : simpl never.
Arguments column_of : simpl never.

(** The 23 appends of the loop body add exactly the row of the track. *)
Lemma append_row_table (country_code : string) (rank : Z) (track : value)
  (rows : list (list value)) :
  is_enriched_track track = true ->
  append_row country_code rank track (table_of rows)
  = Ok (table_of (rows ++ [row_of country_code rank track])).
Proof.
  intros H. unfold is_enriched_track in H. cbn [forallb field_paths] in H.
  repeat (apply andb_true_iff in H; destruct H as [?H H]).
  unfold append_row.
  repeat rewrite resolves_field by assumption.
  repeat rewrite resolves_nested by assumption.
  unfold table_of. cbn [seq map].
  repeat rewrite column_of_snoc.
  reflexivity.
Qed.

Arguments table_of : simpl never.

Lemma format_tracks_table (country_code : string) (tracks : list value) :
  forall (rank : Z) (rows : list (list value)),
    forallb is_enriched_track tracks = true ->
    format_tracks country_code rank tracks (table_of rows)
    = Ok (table_of (rows ++ market_rows country_code rank tracks)).
Proof.
  induction tracks as [|track rest IH]; intros rank rows H; simpl in *.
  - now rewrite app_nil_r.
  - apply andb_true_iff in H as [Ht Hrest].
    rewrite append_row_table by assumption. simpl.
    rewrite IH by assumption. now rewrite <- app_assoc.
Qed.

Lemma format_markets_table (country_data : dict) :
  NoDup (map fst country_data) ->
  forall (entries : dict) (rows : list (list value)),
    incl entries country_data ->
    forallb (fun kv => is_chart (snd kv)) entries = true ->
    format_markets country_data (map fst entries) (table_of rows)
    = Ok (table_of (rows ++ flat_rows entries)).
Proof.
  intros Hnd entries.
  induction entries as [|[code chart] rest IH]; intros rows Hincl H; simpl in *.
  - unfold flat_rows. simpl. now rewrite app_nil_r.
  - apply andb_true_iff in H as [Hchart Hrest].
    unfold dict_getitem.
    rewrite (dict_lookup_in country_data code chart Hnd)
      by (apply Hincl; now left).
    destruct chart as [| | | | |tracks|]; try discriminate. simpl in *.
    rewrite format_tracks_table by assumption. simpl.
    rewrite IH; [|intros x Hx; apply Hincl; now right|assumption].
    unfold flat_rows. simpl. now rewrite <- app_assoc.
Qed.

(** The flattener computes the transpose of the row-wise table. *)
Lemma format_extracted_data_table (country_data : dict) :
  is_market_charts country_data = true ->
  format_extracted_data country_data = Ok (table_of (flat_rows country_data)).
Proof.
  intros H. apply andb_true_iff in H as [Hnd Hcharts].
  unfold format_extracted_data.
  change formatted_data_init with (table_of []).
  rewrite (format_markets_table country_data (nodupb_NoDup _ Hnd)
             country_data [] (incl_refl _) Hcharts).
  reflexivity.
Qed.

Lemma market_rows_length (country_code : string) (tracks : list value) :
  forall rank, length (market_rows country_code rank tracks) = length tracks.
Proof. induction tracks; intros; simpl; auto. Qed.

Lemma flat_rows_length (country_data : dict) :
  length (flat_rows country_data) = total_tracks country_data.
Proof.
  unfold flat_rows, total_tracks.
  induction country_data as [|[code chart] rest IH]; simpl; [reflexivity|].
  now rewrite length_app, market_rows_length, IH.
Qed.

Lemma column_of_length (rows : list (list value)) (i : nat) :
  length (column_of rows i) = length rows.
Proof. unfold column_of. apply length_map. Qed.

Lemma table_of_keys (rows : list (list value)) :
  map fst (table_of rows) = column_names.
Proof. reflexivity. Qed.

Lemma table_of_column_length (rows : list (list value)) (name : string)
  (vals : list value) :
  In (name, vals) (table_of rows) -> length vals = length rows.
Proof.
  unfold table_of. intros Hin. apply in_combine_r in Hin.
  apply in_map_iff in Hin as [i [<- _]]. apply column_of_length.
Qed.

(** ** Shape of the flattened table *)

(** C1: on a MarketChart mapping the flattener returns a table in which
    every column, and the [market] column in particular, has as many
    entries as there are tracks over all markets of the input. *)
Theorem format_extracted_data_column_lengths (country_data : dict) :
  is_market_charts country_data = true ->
  exists out,
    format_extracted_data country_data = Ok out /\
    (forall name vals,
        In (name, vals) out -> length vals = total_tracks country_data) /\
    (exists markets,
        col_lookup "market" out = Some markets /\
        length markets = total_tracks country_data).
Proof.
  intros H. exists (table_of (flat_rows country_data)).
  split; [now apply format_extracted_data_table|]. split.
  - intros name vals Hin.
    rewrite (table_of_column_length _ _ _ Hin). apply flat_rows_length.
  - exists (column_of (flat_rows country_data) 0). split; [reflexivity|].
    rewrite column_of_length. apply flat_rows_length.
Qed.

Lemma format_extracted_data_column_lengths_witness :
  exists out,
    format_extracted_data sample_charts = Ok out /\
    (forall name vals, In (name, vals) out -> length vals = 3) /\
    (exists markets,
        col_lookup "market" out = Some markets /\ length markets = 3).
Proof.
  apply (format_extracted_data_column_lengths sample_charts). reflexivity.
Defined.

(** C10: the table has exactly the 23 fixed columns, in the order of the
    dict literal, whatever the input; for the empty mapping every column
    is empty. *)
Theorem format_extracted_data_fixed_columns (country_data : dict) :
  is_market_charts country_data = true ->
  exists out,
    format_extracted_data country_data = Ok out /\
    map fst out = column_names /\
    length column_names = 23 /\
    NoDup column_names /\
    (country_data = [] -> forall name vals, In (name, vals) out -> vals = []).
Proof.
  intros H. exists (table_of (flat_rows country_data)).
  split; [now apply format_extracted_data_table|].
  split; [apply table_of_keys|]. split; [reflexivity|]. split.
  - apply nodupb_NoDup. reflexivity.
  - intros -> name vals Hin.
    apply table_of_column_length in Hin.
    destruct vals; [reflexivity|discriminate].
Qed.

Lemma format_extracted_data_fixed_columns_witness :
  exists out,
    format_extracted_data [] = Ok out /\
    map fst out = column_names /\
    length column_names = 23 /\
    NoDup column_names /\
    (@nil (string * value) = [] ->
     forall name vals, In (name, vals) out -> vals = []).
Proof.
  apply (format_extracted_data_fixed_columns []). reflexivity.
Defined.

(** ** The flattener on the heap *)

Lemma heap_append_length (a : nat) (v : value) (h : list (list value)) :
  length (heap_append a v h) = length h.
Proof.
  revert a. induction h as [|l h IH]; intros [|a]; simpl; auto.
Qed.

Lemma heap_append_same (a : nat) (v : value) (h : list (list value)) :
  (a < length h)%nat ->
  nth a (heap_append a v h) [] = nth a h [] ++ [v].
Proof.
  revert a. induction h as [|l h IH]; intros [|a] Ha; simpl in *;
    try lia; [reflexivity|].
  apply IH. lia.
Qed.

Lemma heap_append_other (a b : nat) (v : value) (h : list (list value)) :
  b <> a -> nth b (heap_append a v h) [] = nth b h [].
Proof.
  revert a b. induction h as [|l h IH]; intros [|a] [|b] Hne; simpl;
    try reflexivity; try congruence.
  apply IH. congruence.
Qed.

Lemma deref_unchanged (h h' : list (list value)) (fd : column_refs) :
  (forall a, In a (map snd fd) -> nth a h' [] = nth a h []) ->
  deref h' fd = deref h fd.
Proof.
  unfold deref. intros H. apply map_ext_in. intros [k a] Hin. simpl.
  rewrite H; [reflexivity|]. apply in_map_iff. now exists (k, a).
Qed.

Lemma col_lookup_deref (name : string) (h : list (list value))
  (fd : column_refs) :
  col_lookup name (deref h fd)
  = option_map (fun a => nth a h []) (ref_lookup name fd).
Proof.
  induction fd as [|[k a] fd IH]; simpl; [reflexivity|].
  now destruct (String.eqb k name).
Qed.

Lemma ref_lookup_in (name : string) (fd : column_refs) (a : nat) :
  ref_lookup name fd = Some a -> In a (map snd fd).
Proof.
  induction fd as [|[k b] fd IH]; simpl; [discriminate|].
  destruct (String.eqb k name); [intros [= ->]; now left|auto].
Qed.

Lemma col_push_deref (name : string) (v : value) (h : list (list value))
  (fd : column_refs) (a : nat) :
  refs_ok fd h ->
  ref_lookup name fd = Some a ->
  deref (heap_append a v h) fd = col_push name v (deref h fd).
Proof.
  intros [Hnd Hlt]. revert Hnd Hlt.
  induction fd as [|[k b] fd IH]; simpl; intros Hnd Hlt Hlook; [discriminate|].
  inversion Hnd as [|? ? Hnotin Hnd']; subst.
  inversion Hlt as [|? ? Hb Hlt']; subst. simpl in Hb.
  destruct (String.eqb k name).
  - injection Hlook as ->. rewrite heap_append_same by assumption.
    f_equal. apply deref_unchanged. intros c Hc.
    apply heap_append_other. intros ->. contradiction.
  - rewrite heap_append_other.
    + f_equal. now apply IH.
    + intros ->. apply Hnotin. eapply ref_lookup_in. eassumption.
Qed.

Lemma refs_ok_length (fd : column_refs) (h h' : list (list value)) :
  length h' = length h -> refs_ok fd h -> refs_ok fd h'.
Proof. intros Hlen [Hnd Hlt]. split; [assumption|]. now rewrite Hlen. Qed.

Lemma simulates_append (name : string) (arg : result value)
  (fd : column_refs) :
  simulates fd (append_ref name arg fd) (append_item name arg).
Proof.
  intros st Hok. unfold append_item, append_ref.
  rewrite col_lookup_deref.
  destruct (ref_lookup name fd) as [a|] eqn:Ea; simpl.
  - destruct arg as [v|e].
    + exists (heap_append a v (heap st)).
      split; [apply heap_append_length|]. split.
      * intros b Hb. apply heap_append_other. intros ->.
        apply Hb. eapply ref_lookup_in. eassumption.
      * split; [reflexivity|]. now apply col_push_deref.
    + exists (heap st). destruct st. repeat split.
  - exists (heap st). destruct st. repeat split.
Qed.

Lemma simulates_ret (fd : column_refs) : simulates fd (pret tt) (fun c => Ok c).
Proof. intros st Hok. exists (heap st). destruct st. repeat split. Qed.

Lemma simulates_bind (fd : column_refs) (m1 m2 : P unit)
  (f1 f2 : columns -> result columns) :
  simulates fd m1 f1 -> simulates fd m2 f2 ->
  simulates fd (pbind m1 (fun _ => m2)) (fun c => rbind (f1 c) f2).
Proof.
  intros H1 H2 st Hok. destruct (H1 st Hok) as (h1 & Hlen1 & Hfr1 & Hm1).
  unfold pbind.
  destruct (f1 (deref (heap st) fd)) as [cols|e]; simpl.
  - destruct Hm1 as [-> <-].
    destruct (H2 {| heap := h1; stdout := stdout st |}) as (h2 & Hlen2 & Hfr2 & Hm2).
    { simpl. now apply refs_ok_length with (h := heap st). }
    simpl in *. exists h2. split; [congruence|]. split.
    + intros b Hb. rewrite Hfr2, Hfr1 by assumption. reflexivity.
    + exact Hm2.
  - rewrite Hm1. exists h1. now repeat split.
Qed.

Lemma simulates_row (country_code : string) (rank : Z) (track : value)
  (fd : column_refs) :
  simulates fd (append_row_heap country_code rank track fd)
            (append_row country_code rank track).
Proof.
  unfold append_row_heap, append_row.
  repeat (apply simulates_bind; [apply simulates_append|]).
  apply simulates_append.
Qed.

Lemma simulates_tracks (country_code : string) (tracks : list value)
  (fd : column_refs) :
  forall rank,
    simulates fd (format_tracks_heap country_code rank tracks fd)
              (format_tracks country_code rank tracks).
Proof.
  induction tracks as [|track rest IH]; intros rank; simpl.
  - apply simulates_ret.
  - apply simulates_bind; [apply simulates_row|apply IH].
Qed.

Lemma pbind_plift_ok {A B} (a : A) (k : A -> P B) (st : pystate) :
  pbind (plift (Ok a)) k st = k a st.
Proof. reflexivity. Qed.

Lemma simulates_markets (country_data : dict) (codes : list string)
  (fd : column_refs) :
  simulates fd (format_markets_heap country_data codes fd)
            (format_markets country_data codes).
Proof.
  induction codes as [|code rest IH]; simpl.
  - apply simulates_ret.
  - intros st Hok.
    destruct (dict_getitem country_data code) as [chart|e]; simpl.
    + rewrite pbind_plift_ok.
      destruct (py_iter chart) as [tracks|e]; simpl.
      * rewrite pbind_plift_ok.
        exact (simulates_bind fd _ _ _ _ (simulates_tracks code tracks fd 1)
                 IH st Hok).
      * exists (heap st). destruct st. repeat split.
    + exists (heap st). destruct st. repeat split.
Qed.

Lemma new_columns_run (names : list string) :
  forall st,
    new_columns names st
    = (Ok (combine names (seq (length (heap st)) (length names))),
       {| heap := heap st ++ repeat [] (length names); stdout := stdout st |}).
Proof.
  induction names as [|name rest IH]; intros st; simpl.
  - unfold pret. rewrite app_nil_r. now destruct st.
  - unfold pbind at 1. unfold new_list. unfold pbind at 1.
    rewrite IH. simpl. unfold pret. rewrite length_app. simpl.
    rewrite Nat.add_1_r, <- app_assoc. reflexivity.
Qed.

Lemma deref_new_columns (h : list (list value)) (names : list string) :
  deref (h ++ repeat [] (length names))
        (combine names (seq (length h) (length names)))
  = map (fun name => (name, [])) names.
Proof.
  unfold deref. revert h.
  induction names as [|name rest IH]; intros h; simpl; [reflexivity|].
  f_equal.
  - f_equal. rewrite app_nth2 by lia. now rewrite Nat.sub_diag.
  - specialize (IH (h ++ [[]])). rewrite length_app in IH. simpl in IH.
    rewrite Nat.add_1_r, <- app_assoc in IH. exact IH.
Qed.

Lemma refs_ok_new_columns (h : list (list value)) (names : list string) :
  refs_ok (combine names (seq (length h) (length names)))
          (h ++ repeat [] (length names)).
Proof.
  assert (map snd (combine names (seq (length h) (length names)))
          = seq (length h) (length names)) as Hsnd.
  { generalize (length h). induction names as [|n rest IH]; intros b; simpl;
      [reflexivity|]. now rewrite IH. }
  split.
  - rewrite Hsnd. apply seq_NoDup.
  - apply Forall_forall. intros [k a] Hin. simpl.
    assert (In a (seq (length h) (length names))) as Ha.
    { rewrite <- Hsnd. apply in_map_iff. now exists (k, a). }
    apply in_seq in Ha. rewrite length_app, repeat_length. lia.
Qed.

Lemma format_extracted_data_heap_run (country_data : dict) (st : pystate) :
  exists st',
    stdout st' = stdout st /\
    (length (heap st) <= length (heap st'))%nat /\
    (forall a, (a < length (heap st))%nat ->
               nth a (heap st') [] = nth a (heap st) []) /\
    match format_extracted_data country_data with
    | Ok cols =>
        exists fd,
          format_extracted_data_heap country_data st = (Ok fd, st') /\
          deref (heap st') fd = cols /\
          Forall (fun kr => (snd kr < length (heap st'))%nat) fd
    | Err e => format_extracted_data_heap country_data st = (Err e, st')
    end.
Proof.
  set (fd := combine column_names (seq (length (heap st)) (length column_names))).
  set (st0 := {| heap := heap st ++ repeat [] (length column_names);
                 stdout := stdout st |}).
  assert (new_columns column_names st = (Ok fd, st0)) as Hnew
      by apply new_columns_run.
  pose proof (refs_ok_new_columns (heap st) column_names) as Hok.
  fold fd in Hok.
  destruct (simulates_markets country_data (map fst country_data) fd st0 Hok)
    as (h' & Hlen & Hframe & Hrun).
  assert (deref (heap st0) fd = formatted_data_init) as Hinit.
  { exact (deref_new_columns (heap st) column_names). }
  rewrite Hinit in Hrun.
  assert (forall a, (a < length (heap st))%nat -> ~ In a (map snd fd)) as Hold.
  { intros a Ha Hin.
    apply in_map_iff in Hin as ([k b] & <- & Hin). simpl in Ha.
    unfold fd in Hin. apply in_combine_r in Hin. apply in_seq in Hin. lia. }
  exists {| heap := h'; stdout := stdout st |}. simpl.
  split; [reflexivity|]. split.
  { rewrite Hlen. unfold st0. simpl. rewrite length_app. lia. }
  split.
  { intros a Ha. rewrite Hframe by (now apply Hold).
    unfold st0. simpl. now rewrite app_nth1. }
  unfold format_extracted_data, format_extracted_data_heap.
  destruct (format_markets country_data (map fst country_data)
              formatted_data_init) as [cols|e].
  - destruct Hrun as [Hrun Hcols]. exists fd. unfold pbind.
    rewrite Hnew, Hrun.
    split; [reflexivity|]. split; [assumption|].
    destruct Hok as [_ Hlt]. now rewrite Hlen.
  - unfold pbind. now rewrite Hnew, Hrun.
Qed.

(** C8: the flattener is a function of its argument alone.  Started in any
    state of the heap and the console, the call prints nothing and changes
    no list object that existed before; the columns read through the dict
    it returns are those of [format_extracted_data], which do not depend on
    that state; a second call on the same mapping returns columns equal to
    the first call's and leaves the first call's lists as they were.  When
    the call raises, it raises whatever the state was. *)
Theorem format_extracted_data_heap_pure (country_data : dict) (st : pystate) :
  match format_extracted_data country_data with
  | Ok cols =>
      exists fd1 st1 fd2 st2,
        format_extracted_data_heap country_data st = (Ok fd1, st1) /\
        format_extracted_data_heap country_data st1 = (Ok fd2, st2) /\
        deref (heap st1) fd1 = cols /\
        deref (heap st2) fd2 = cols /\
        deref (heap st2) fd1 = cols /\
        stdout st1 = stdout st /\
        stdout st2 = stdout st /\
        (forall a, (a < length (heap st))%nat ->
                   nth a (heap st2) [] = nth a (heap st) [])
  | Err e =>
      exists st1,
        format_extracted_data_heap country_data st = (Err e, st1) /\
        stdout st1 = stdout st /\
        (forall a, (a < length (heap st))%nat ->
                   nth a (heap st1) [] = nth a (heap st) [])
  end.
Proof.
  destruct (format_extracted_data_heap_run country_data st)
    as (st1 & Hout1 & Hlen1 & Hframe1 & Hrun1).
  destruct (format_extracted_data country_data) as [cols|e] eqn:E.
  - destruct Hrun1 as (fd1 & Hrun1 & Hcols1 & Hlt1).
    destruct (format_extracted_data_heap_run country_data st1)
      as (st2 & Hout2 & Hlen2 & Hframe2 & Hrun2).
    rewrite E in Hrun2. destruct Hrun2 as (fd2 & Hrun2 & Hcols2 & Hlt2).
    exists fd1, st1, fd2, st2. repeat split; try assumption; try congruence.
    + rewrite <- Hcols1. apply deref_unchanged. intros a Ha.
      apply Hframe2. apply in_map_iff in Ha as ([k b] & <- & Hin).
      rewrite Forall_forall in Hlt1. apply (Hlt1 _ Hin).
    + intros a Ha. rewrite Hframe2 by lia. now apply Hframe1.
  - exists st1. now repeat split.
Qed.

(** ** Ranks *)

Lemma combine_map_same {A B C} (f : A -> B) (g : A -> C) (l : list A) :
  combine (map f l) (map g l) = map (fun x => (f x, g x)) l.
Proof. induction l; simpl; congruence. Qed.

Lemma filter_map_swap {A B} (p : B -> bool) (h : A -> B) (l : list A) :
  filter p (map h l) = map h (filter (fun x => p (h x)) l).
Proof.
  induction l as [|x l IH]; simpl; [reflexivity|].
  destruct (p (h x)); simpl; congruence.
Qed.

Lemma market_ranking_table (country_code : string) (rows : list (list value)) :
  market_ranking country_code (table_of rows)
  = map (fun row => (nth 1 row VNone, nth 5 row VNone))
        (filter (row_market_is country_code) rows).
Proof.
  unfold market_ranking, table_of. cbn [col_lookup combine column_names seq map String.eqb Ascii.eqb Bool.eqb].
  unfold column_of.
  rewrite (combine_map_same (fun row => nth 1 row VNone)
             (fun row => nth 5 row VNone)).
  rewrite (combine_map_same (fun row => nth 0 row VNone)).
  rewrite filter_map_swap, map_map. reflexivity.
Qed.

Lemma filter_market_rows (country_code code : string) (tracks : list value) :
  forall rank,
    filter (row_market_is country_code) (market_rows code rank tracks)
    = if String.eqb code country_code then market_rows code rank tracks else [].
Proof.
  induction tracks as [|track rest IH]; intros rank; simpl.
  - now destruct (String.eqb code country_code).
  - unfold row_market_is at 1. simpl. rewrite IH.
    now destruct (String.eqb code country_code).
Qed.

Lemma filter_flat_rows (country_code : string) (tracks : list value)
  (country_data : dict) :
  NoDup (map fst country_data) ->
  In (country_code, VList tracks) country_data ->
  filter (row_market_is country_code) (flat_rows country_data)
  = market_rows country_code 1 tracks.
Proof.
  unfold flat_rows.
  induction country_data as [|[code chart] rest IH]; simpl; intros Hnd Hin;
    [contradiction|].
  inversion Hnd as [|? ? Hnotin Hnd']; subst.
  rewrite filter_app, filter_market_rows.
  destruct Hin as [Heq|Hin].
  - inversion Heq; subst. rewrite String.eqb_refl. simpl.
    rewrite <- (app_nil_r (market_rows _ _ _)) at 2. f_equal.
    clear IH Hnd Heq Hnd'. 
    induction rest as [|[code' chart'] rest IH]; simpl; [reflexivity|].
    rewrite filter_app, filter_market_rows.
    destruct (String.eqb_spec code' country_code) as [->|_].
    + exfalso. apply Hnotin. now left.
    + simpl. apply IH. intros Hin. apply Hnotin. now right.
  - destruct (String.eqb_spec code country_code) as [->|_].
    + exfalso. apply Hnotin. apply in_map_iff.
      now exists (country_code, VList tracks).
    + simpl. now apply IH.
Qed.

Lemma market_rows_ranking (country_code : string) (tracks : list value) :
  forall k : nat,
    map (fun row => (nth 1 row VNone, nth 5 row VNone))
        (market_rows country_code (Z.of_nat k) tracks)
    = combine (map (fun i => VInt (Z.of_nat i)) (seq k (length tracks)))
              (map (fun track => cell track ["id"]) tracks).
Proof.
  induction tracks as [|track rest IH]; intros k; simpl; [reflexivity|].
  f_equal. replace (Z.of_nat k + 1)%Z with (Z.of_nat (S k)) by lia.
  apply IH.
Qed.

Lemma map_fst_combine {A B} (l : list A) (l' : list B) :
  length l = length l' -> map fst (combine l l') = l.
Proof.
  revert l'. induction l as [|x l IH]; intros [|y l'] H; simpl in *;
    try discriminate; [reflexivity|].
  f_equal. apply IH. congruence.
Qed.

(** C2: within each market the ranks are [1, 2, ..., n], one per track in
    chart order, whatever the other markets hold. *)
Theorem format_extracted_data_ranks (country_data : dict) :
  is_market_charts country_data = true ->
  exists out,
    format_extracted_data country_data = Ok out /\
    forall country_code tracks,
      In (country_code, VList tracks) country_data ->
      map fst (market_ranking country_code out) = ranks_upto (length tracks) /\
      Forall2 (fun track row => getitem track "id" = Ok (snd row))
              tracks (market_ranking country_code out).
Proof.
  intros H. exists (table_of (flat_rows country_data)).
  split; [now apply format_extracted_data_table|].
  apply andb_true_iff in H as [Hnd Hcharts]. apply nodupb_NoDup in Hnd.
  intros country_code tracks Hin.
  rewrite market_ranking_table, (filter_flat_rows _ tracks) by assumption.
  change 1%Z with (Z.of_nat 1).
  rewrite (market_rows_ranking country_code tracks 1).
  split.
  - apply map_fst_combine. unfold ranks_upto.
    now rewrite !length_map, length_seq.
  - rewrite forallb_forall in Hcharts. specialize (Hcharts _ Hin).
    simpl in Hcharts. clear Hin. generalize 1%nat.
    induction tracks as [|track rest IH]; intros k; simpl; constructor.
    + simpl in *. apply andb_true_iff in Hcharts as [Ht _].
      apply resolves_field. unfold is_enriched_track in Ht.
      rewrite forallb_forall in Ht. apply Ht. simpl. tauto.
    + apply IH. simpl in Hcharts. now apply andb_true_iff in Hcharts as [_ ?].
Qed.

Lemma format_extracted_data_ranks_witness :
  exists out,
    format_extracted_data sample_charts = Ok out /\
    forall country_code tracks,
      In (country_code, VList tracks) sample_charts ->
      map fst (market_ranking country_code out) = ranks_upto (length tracks) /\
      Forall2 (fun track row => getitem track "id" = Ok (snd row))
              tracks (market_ranking country_code out).
Proof.
  apply (format_extracted_data_ranks sample_charts). reflexivity.
Defined.

(** ** The run monad *)

Lemma bind_ok {W A B} (m : M W A) (k : A -> M W B) (s s' : run_state W) (a : A) :
  m s = (Ok a, s') -> bind m k s = k a s'.
Proof. unfold bind. now intros ->. Qed.

Lemma bind_err {W A B} (m : M W A) (k : A -> M W B) (s s' : run_state W)
  (e : exn) :
  m s = (Err e, s') -> bind m k s = (Err e, s').
Proof. unfold bind. now intros ->. Qed.

Lemma call_eq {W} (f : W -> result value * W) (s : run_state W)
  (r : result value) (w' : W) :
  f (world s) = (r, w') -> call f s = (r, after_call s w').
Proof. unfold call. now intros ->. Qed.

(** ** The locators *)

Lemma playlist_item_fields (item : value) :
  is_playlist_item item = true ->
  exists name description,
    getitem item "name" = Ok (VStr name) /\
    getitem item "description" = Ok (VStr description) /\
    getitem item "id" = Ok (cell item ["id"]) /\
    cell item ["name"] = VStr name.
Proof.
  unfold is_playlist_item, str_field. intros H.
  destruct (getitem item "name") as [[| | | |name| |]|] eqn:En; try discriminate.
  destruct (getitem item "description") as [[| | | |d| |]|] eqn:Ed;
    try discriminate.
  exists name, d. repeat split.
  - now apply resolves_field.
  - unfold cell. simpl. now rewrite En.
Qed.

Lemma scan_top50_global_find (items : list value) :
  forallb is_playlist_item items = true ->
  scan_top50_global items = Ok (located (find global_hit items)).
Proof.
  induction items as [|item rest IH]; simpl; intros H; [reflexivity|].
  apply andb_true_iff in H as [Hitem Hrest].
  destruct (playlist_item_fields item Hitem) as (name & d & En & Ed & Ei & Ec).
  unfold global_hit, str_field. rewrite En, Ei. simpl.
  destruct (str_contains "Top 50" name); simpl; [|now apply IH].
  destruct (str_contains "Świat" name); simpl; [|now apply IH].
  unfold playlist_ref. now rewrite Ec.
Qed.

Lemma scan_top50_playlist_find (items : list value) :
  forallb is_playlist_item items = true ->
  scan_top50_playlist items = Ok (located (find market_hit items)).
Proof.
  induction items as [|item rest IH]; simpl; intros H; [reflexivity|].
  apply andb_true_iff in H as [Hitem Hrest].
  destruct (playlist_item_fields item Hitem) as (name & d & En & Ed & Ei & Ec).
  unfold market_hit, str_field. rewrite En, Ed, Ei. simpl.
  destruct (str_contains "most played tracks" d); simpl; [|now apply IH].
  destruct (str_contains "Global" d); simpl; [now apply IH|].
  destruct (str_contains "USA" d); simpl; [now apply IH|].
  unfold playlist_ref. now rewrite Ec.
Qed.

Lemma extract_top50_global_run {W} (api : SpotifyAPI W) (category_id : value)
  (s : run_state W) (resp : value) (w' : W) (items : list value) :
  get_playlists_from_category api category_id (VStr "PL") (world s)
    = (Ok resp, w') ->
  getpath resp ["playlists"; "items"] = Ok (VList items) ->
  forallb is_playlist_item items = true ->
  extract_top50_global api category_id s
  = (Ok (located (find global_hit items)), after_call s w').
Proof.
  intros Hcall Hitems Hwf. unfold extract_top50_global.
  rewrite (bind_ok _ _ _ _ _ (call_eq _ _ _ _ Hcall)). unfold lift.
  simpl in Hitems.
  destruct (getitem resp "playlists") as [p|]; simpl in *; [|discriminate].
  destruct (getitem p "items") as [i|]; simpl in *; [|discriminate].
  injection Hitems as ->. simpl.
  now rewrite scan_top50_global_find.
Qed.

Lemma extract_top50_playlist_run {W} (api : SpotifyAPI W)
  (category_id country_code : value)
  (s : run_state W) (resp : value) (w' : W) (items : list value) :
  get_playlists_from_category api category_id country_code (world s)
    = (Ok resp, w') ->
  getpath resp ["playlists"; "items"] = Ok (VList items) ->
  forallb is_playlist_item items = true ->
  extract_top50_playlist api category_id country_code s
  = (Ok (located (find market_hit items)), after_call s w').
Proof.
  intros Hcall Hitems Hwf. unfold extract_top50_playlist.
  rewrite (bind_ok _ _ _ _ _ (call_eq _ _ _ _ Hcall)). unfold lift.
  simpl in Hitems.
  destruct (getitem resp "playlists") as [p|]; simpl in *; [|discriminate].
  destruct (getitem p "items") as [i|]; simpl in *; [|discriminate].
  injection Hitems as ->. simpl.
  now rewrite scan_top50_playlist_find.
Qed.

Lemma find_first {A} (p : A -> bool) (l : list A) (x : A) :
  find p l = Some x ->
  exists before after,
    l = before ++ x :: after /\ p x = true /\
    forallb (fun y => negb (p y)) before = true.
Proof.
  induction l as [|y l IH]; simpl; [discriminate|].
  destruct (p y) eqn:E.
  - intros [= ->]. now exists [], l.
  - intros H. destruct (IH H) as (before & after & -> & Hx & Hb).
    exists (y :: before), after. simpl. now rewrite E.
Qed.

(** C4: on a listing fetched for market PL the global locator returns the
    reference to the first item, in listing order, whose name contains both
    "Top 50" and "Świat". *)
Theorem extract_top50_global_first_match (W : Type) (api : SpotifyAPI W)
  (category_id : value) (s : run_state W) (resp : value) (w' : W)
  (items : list value) :
  get_playlists_from_category api category_id (VStr "PL") (world s)
    = (Ok resp, w') ->
  getpath resp ["playlists"; "items"] = Ok (VList items) ->
  forallb is_playlist_item items = true ->
  extract_top50_global api category_id s
    = (Ok (located (find global_hit items)), after_call s w') /\
  forall item,
    find global_hit items = Some item ->
    exists before after,
      items = before ++ item :: after /\
      global_hit item = true /\
      forallb (fun other => negb (global_hit other)) before = true.
Proof.
  intros Hcall Hitems Hwf. split.
  - now apply extract_top50_global_run with (resp := resp).
  - intros item. apply find_first.
Qed.

Lemma extract_top50_global_first_match_witness :
  extract_top50_global sample_api CATEGORY_ID sample_start
    = (Ok (VDict [("name", VStr "Top 50 - Świat"); ("id", VStr "p2")]),
       after_call sample_start 1%nat) /\
  forall item,
    find global_hit sample_global_items = Some item ->
    exists before after,
      sample_global_items = before ++ item :: after /\
      global_hit item = true /\
      forallb (fun other => negb (global_hit other)) before = true.
Proof.
  apply (extract_top50_global_first_match nat sample_api CATEGORY_ID
           sample_start (listing_of sample_global_items) 1%nat
           sample_global_items); reflexivity.
Defined.

(** C5: the per-market locator returns the reference to the first item, in
    listing order, whose description contains "most played tracks" and
    neither "Global" nor "USA". *)
Theorem extract_top50_playlist_first_match (W : Type) (api : SpotifyAPI W)
  (category_id country_code : value) (s : run_state W) (resp : value)
  (w' : W) (items : list value) :
  get_playlists_from_category api category_id country_code (world s)
    = (Ok resp, w') ->
  getpath resp ["playlists"; "items"] = Ok (VList items) ->
  forallb is_playlist_item items = true ->
  extract_top50_playlist api category_id country_code s
    = (Ok (located (find market_hit items)), after_call s w') /\
  forall item,
    find market_hit items = Some item ->
    exists before after,
      items = before ++ item :: after /\
      market_hit item = true /\
      forallb (fun other => negb (market_hit other)) before = true.
Proof.
  intros Hcall Hitems Hwf. split.
  - now apply extract_top50_playlist_run with (resp := resp).
  - intros item. apply find_first.
Qed.

Lemma extract_top50_playlist_first_match_witness :
  extract_top50_playlist sample_api CATEGORY_ID (VStr "DE") sample_start
    = (Ok (VDict [("name", VStr "Top 50 - Germany"); ("id", VStr "p3")]),
       after_call sample_start 1%nat) /\
  forall item,
    find market_hit sample_market_items = Some item ->
    exists before after,
      sample_market_items = before ++ item :: after /\
      market_hit item = true /\
      forallb (fun other => negb (market_hit other)) before = true.
Proof.
  apply (extract_top50_playlist_first_match nat sample_api CATEGORY_ID
           (VStr "DE") sample_start (listing_of sample_market_items) 1%nat
           sample_market_items); reflexivity.
Defined.

(** ** The audio-analysis summary *)

(** C6: the summary takes the two fade markers from the response's [track]
    object and counts the [sections] and [segments] arrays. *)
Theorem extract_track_audio_analysis_counts (W : Type) (api : SpotifyAPI W)
  (track_id : value) (s : run_state W) (analysis : value) (w' : W)
  (fade_in fade_out : value) (sections segments : list value) :
  get_track_audio_analysis api track_id (world s) = (Ok analysis, w') ->
  getpath analysis ["track"; "end_of_fade_in"] = Ok fade_in ->
  getpath analysis ["track"; "start_of_fade_out"] = Ok fade_out ->
  getitem analysis "sections" = Ok (VList sections) ->
  getitem analysis "segments" = Ok (VList segments) ->
  extract_track_audio_analysis api track_id s
  = (Ok (VDict [ ("end_of_fade_in", fade_in);
                 ("start_of_fade_out", fade_out);
                 ("sections_number", VInt (Z.of_nat (length sections)));
                 ("segments_number", VInt (Z.of_nat (length segments))) ]),
     after_call s w').
Proof.
  intros Hcall Hin Hout Hsec Hseg. unfold extract_track_audio_analysis.
  rewrite (bind_ok _ _ _ _ _ (call_eq _ _ _ _ Hcall)). unfold lift.
  simpl in Hin, Hout.
  destruct (getitem analysis "track") as [track|]; simpl in *; [|discriminate].
  destruct (getitem track "end_of_fade_in") as [x|]; simpl in *;
    [|discriminate].
  destruct (getitem track "start_of_fade_out") as [y|]; simpl in *;
    [|discriminate].
  injection Hin as ->. injection Hout as ->.
  rewrite Hsec. simpl. rewrite Hseg. reflexivity.
Qed.

Lemma extract_track_audio_analysis_counts_witness :
  extract_track_audio_analysis sample_api (VStr "a") sample_start
  = (Ok (VDict [ ("end_of_fade_in", VFloat (1 # 5));
                 ("start_of_fade_out", VFloat (180 # 1));
                 ("sections_number", VInt 2);
                 ("segments_number", VInt 3) ]),
     after_call sample_start 1%nat).
Proof.
  apply (extract_track_audio_analysis_counts nat sample_api (VStr "a")
           sample_start sample_audio_analysis 1%nat
           (VFloat (1 # 5)) (VFloat (180 # 1))
           [VDict []; VDict []] [VDict []; VDict []; VDict []]);
    reflexivity.
Defined.

(** ** Missing keys *)











Lemma join_items_fails {W} (api : SpotifyAPI W) (items : list value)
  (item : value) :
  In item items ->
  (forall d artists s,
      track_data_dict_of item = Ok d ->
      getpath item ["track"; "artists"] = Ok artists ->
      forall l, py_iter artists = Ok l ->
      exists e s', add_followers api l d s = (Err e, s')) ->
  forall acc s, exists e s', join_items api items acc s = (Err e, s').
Proof.
  intros Hin Hfail.
  induction items as [|h rest IH]; [contradiction|].
  intros acc s. simpl. unfold bind at 1. unfold lift at 1.
  destruct (track_data_dict_of h) as [d|e0] eqn:Ed; [|eauto].
  unfold bind at 1. unfold lift at 1.
  destruct (getitem h "track") as [track|e1] eqn:Et; simpl; [|eauto].
  destruct (getitem track "artists") as [arts|e2] eqn:Ea; simpl; [|eauto].
  destruct (py_iter arts) as [l|e3] eqn:El; [|eauto].
  unfold bind at 1.
  destruct (add_followers api l d s) as [[d'|e4] s1] eqn:Ef; [|eauto].
  destruct Hin as [->|Hin]; [|now apply IH].
  exfalso.
  destruct (Hfail d arts s Ed) with (l := l) as (e & s' & He); [| assumption |].
  - simpl. rewrite Et. simpl. rewrite Ea. reflexivity.
  - congruence.
Qed.


Lemma extract_raw_data_tracks_abort {W} (api : SpotifyAPI W)
  (countries : list string) (s s1 s2 : run_state W) (ref playlist_id : value)
  (e : exn) :
  extract_top50_global api CATEGORY_ID s = (Ok ref, s1) ->
  getitem ref "id" = Ok playlist_id ->
  extract_playlist_tracks api playlist_id s1 = (Err e, s2) ->
  extract_raw_data api countries s = (Err e, s2).
Proof.
  intros Hglobal Hid Htracks. unfold extract_raw_data.
  apply bind_err. unfold extract_global.
  rewrite (bind_ok _ _ _ _ _ Hglobal).
  unfold bind at 1. unfold lift at 1. rewrite Hid.
  now apply bind_err.
Qed.

(** ** Alignment of artists and follower counts *)

Lemma dict_lookup_set_same (k : string) (v : value) (d : dict) :
  dict_lookup k (dict_set k v d) = Some v.
Proof.
  induction d as [|[k' v'] d IH]; simpl.
  - now rewrite String.eqb_refl.
  - destruct (String.eqb k' k) eqn:E; simpl; now rewrite E.
Qed.

Lemma dict_lookup_set_other (k k' : string) (v : value) (d : dict) :
  k' <> k -> dict_lookup k' (dict_set k v d) = dict_lookup k' d.
Proof.
  intros Hne. induction d as [|[k0 v0] d IH]; simpl.
  - destruct (String.eqb_spec k k'); [congruence|reflexivity].
  - destruct (String.eqb_spec k0 k) as [->|Hk]; simpl.
    + destruct (String.eqb_spec k k'); [congruence|reflexivity].
    + now rewrite IH.
Qed.

Lemma rmapM_Forall2 {A B} (f : A -> result B) (l : list A) :
  forall ys, rmapM f l = Ok ys -> Forall2 (fun x y => f x = Ok y) l ys.
Proof.
  induction l as [|x l IH]; simpl; intros ys H.
  - injection H as <-. constructor.
  - destruct (f x) as [y|] eqn:Ex; simpl in H; [|discriminate].
    destruct (rmapM f l) as [ys'|]; simpl in H; [|discriminate].
    injection H as <-. constructor; auto.
Qed.

Lemma track_data_dict_of_fields (item : value) (d : dict) :
  track_data_dict_of item = Ok d ->
  exists artists names,
    (let? t := getitem item "track" in
     let? a := getitem t "artists" in
     py_iter a)%result = Ok artists /\
    dict_lookup "artists" d = Some (VList names) /\
    dict_lookup "artists_followers" d = Some (VList []) /\
    Forall2 (fun artist name => getitem artist "name" = Ok name) artists names.
Proof.
  unfold track_data_dict_of. intros H.
  destruct (getitem item "track") as [track|]; simpl in *; [|discriminate].
  destruct (getitem track "name"); simpl in *; [|discriminate].
  destruct (getitem track "artists") as [arts|]; simpl in *; [|discriminate].
  destruct (py_iter arts) as [artl|]; simpl in *; [|discriminate].
  destruct (rmapM (fun artist => getitem artist "name") artl) as [names|] eqn:En;
    simpl in *; [|discriminate].
  destruct (getitem track "id"); simpl in *; [|discriminate].
  destruct (getitem track "album") as [album|]; simpl in *; [|discriminate].
  destruct (getitem album "name"); simpl in *; [|discriminate].
  destruct (getitem album "release_date"); simpl in *; [|discriminate].
  destruct (getitem track "popularity"); simpl in *; [|discriminate].
  injection H as <-. exists artl, names.
  repeat split. now apply rmapM_Forall2.
Qed.

Lemma add_followers_run {W} (api : SpotifyAPI W) (artists : list value) :
  forall (d d' : dict) (s s' : run_state W) (before : list value),
    add_followers api artists d s = (Ok d', s') ->
    dict_lookup "artists_followers" d = Some (VList before) ->
    exists counts,
      dict_lookup "artists_followers" d' = Some (VList (before ++ counts)) /\
      dict_lookup "artists" d' = dict_lookup "artists" d /\
      followers_run api artists s counts s'.
Proof.
  induction artists as [|a rest IH]; intros d d' s s' before Hrun Hlook.
  - injection Hrun as <- <-. exists []. rewrite app_nil_r.
    repeat split; [assumption|constructor].
  - simpl in Hrun. unfold bind at 1 in Hrun. unfold lift at 1 in Hrun.
    destruct (getitem a "id") as [aid|] eqn:Eid; [|discriminate].
    unfold bind at 1 in Hrun.
    destruct (get_artist_info api aid (world s)) as [res w1] eqn:Ecall.
    rewrite (call_eq _ _ _ _ Ecall) in Hrun.
    destruct res as [resp|]; [|discriminate].
    unfold bind at 1 in Hrun. unfold lift at 1 in Hrun.
    unfold list_append in Hrun. rewrite Hlook in Hrun.
    destruct (let? f := getitem resp "followers" in getitem f "total")%result
      as [count|] eqn:Ecount; [|discriminate].
    apply IH with (before := before ++ [count]) in Hrun;
      [|apply dict_lookup_set_same].
    destruct Hrun as (counts & Hf & Ha & Hall).
    exists (count :: counts). rewrite <- app_assoc in Hf. repeat split.
    + exact Hf.
    + rewrite Ha. now apply dict_lookup_set_other.
    + apply followers_step with (artist_id := aid) (resp := resp) (w' := w1);
        try assumption.
      unfold followers_path. simpl.
      destruct (getitem resp "followers") as [f|]; simpl in *; [|discriminate].
      now destruct (getitem f "total").
Qed.

Lemma join_items_run {W} (api : SpotifyAPI W) (items : list value) :
  forall (acc tracks : list value) (s s' : run_state W),
    join_items api items acc s = (Ok tracks, s') ->
    exists new, tracks = acc ++ new /\ joined_run api items s new s'.
Proof.
  induction items as [|item rest IH]; intros acc tracks s s' Hrun.
  - injection Hrun as <- <-. exists []. rewrite app_nil_r.
    split; constructor.
  - simpl in Hrun. unfold bind at 1 in Hrun. unfold lift at 1 in Hrun.
    destruct (track_data_dict_of item) as [d|] eqn:Ed; [|discriminate].
    destruct (track_data_dict_of_fields item d Ed)
      as (artists & names & Hartists & Hn & Hf & Hnames).
    unfold bind at 1 in Hrun. unfold lift at 1 in Hrun.
    rewrite Hartists in Hrun. unfold bind at 1 in Hrun.
    destruct (add_followers api artists d s) as [[d'|] s1] eqn:Eadd;
      [|discriminate].
    destruct (add_followers_run api artists d d' s s1 [] Eadd Hf)
      as (counts & Hcounts & Hkeep & Hall).
    apply IH in Hrun as (new & -> & Hnew).
    exists (VDict d' :: new). rewrite <- app_assoc. split; [reflexivity|].
    assert (item_artists item = artists) as Hitem
        by (unfold item_artists; now rewrite Hartists).
    apply joined_step with (names := names) (counts := counts) (s1 := s1);
      rewrite ?Hitem; try assumption.
    + unfold getitem, dict_getitem. now rewrite Hkeep, Hn.
    + unfold getitem, dict_getitem. now rewrite Hcounts.
Qed.

Lemma followers_run_length {W} (api : SpotifyAPI W) (artists : list value)
  (s s' : run_state W) (counts : list value) :
  followers_run api artists s counts s' -> length counts = length artists.
Proof. induction 1; simpl; congruence. Qed.

Lemma joined_run_aligned {W} (api : SpotifyAPI W) (items : list value)
  (s s' : run_state W) (tracks : list value) :
  joined_run api items s tracks s' -> Forall followers_aligned tracks.
Proof.
  induction 1 as [|item items s track tracks names counts s1 s'
                   Hn Hnames Hc Hrun _ IH]; constructor; [|assumption].
  exists (VList names), (VList counts). repeat split; try assumption.
  exists names, counts. repeat split.
  rewrite (followers_run_length _ _ _ _ _ Hrun).
  symmetry. apply (Forall2_length Hnames).
Qed.

(** Follower counts listed against the order of the names do not pass for
    what the joiner builds. *)
Lemma swapped_counts_not_joined (s s' : run_state nat) :
  ~ joined_run sample_api
      [ sample_playlist_entry "b" "Song B"
          [sample_artist "x" "X"; sample_artist "y" "Y"] ]
      s
      [ sample_track_record "b" "Song B" ["X"; "Y"] [7%Z; 100%Z] ]
      s'.
Proof.
  intros H. inversion H as [|? ? ? ? ? names counts s1 ? Hn Hnames Hc Hrun Hrest];
    subst.
  injection Hc as <-.
  inversion Hrun as [|? ? ? aid resp w' ? ? ? Hid Hcall Hcount Hmore]; subst.
  injection Hid as <-. injection Hcall as <- _. discriminate Hcount.
Qed.

Lemma setitem_keeps (track track' : value) (k k' : string) (v : value) :
  setitem track k v = Ok track' -> k' <> k ->
  getitem track' k' = getitem track k'.
Proof.
  destruct track; simpl; try discriminate.
  intros [= <-] Hne. unfold getitem, dict_getitem.
  now rewrite dict_lookup_set_other.
Qed.

Lemma setitem_aligned (track track' : value) (k : string) (v : value) :
  setitem track k v = Ok track' ->
  k <> "artists" -> k <> "artists_followers" ->
  followers_aligned track -> followers_aligned track'.
Proof.
  intros Hset Ha Hf (artists & followers & Hga & Hgf & Hlen).
  exists artists, followers.
  rewrite (setitem_keeps _ _ _ "artists" _ Hset) by congruence.
  rewrite (setitem_keeps _ _ _ "artists_followers" _ Hset) by congruence.
  now repeat split.
Qed.

Lemma add_tracks_information_aligned {W} (api : SpotifyAPI W)
  (tracks : list value) :
  forall (tracks' : list value) (s s' : run_state W),
    add_tracks_information api tracks s = (Ok tracks', s') ->
    Forall followers_aligned tracks ->
    Forall followers_aligned tracks'.
Proof.
  induction tracks as [|track rest IH]; intros tracks' s s' Hrun Hall.
  - injection Hrun as <- <-. constructor.
  - inversion Hall as [|? ? Htrack Hrest]; subst.
    simpl in Hrun. unfold bind at 1 in Hrun. unfold lift at 1 in Hrun.
    destruct (getitem track "id") as [id1|]; [|discriminate].
    unfold bind at 1 in Hrun.
    destruct (extract_track_features api id1 s) as [[features|] s1];
      [|discriminate].
    unfold bind at 1 in Hrun. unfold lift at 1 in Hrun.
    destruct (setitem track "features" features) as [track1|] eqn:E1;
      [|discriminate].
    unfold bind at 1 in Hrun. unfold lift at 1 in Hrun.
    destruct (getitem track1 "id") as [id2|]; [|discriminate].
    unfold bind at 1 in Hrun.
    destruct (extract_track_audio_analysis api id2 s1) as [[analysis|] s2];
      [|discriminate].
    unfold bind at 1 in Hrun. unfold lift at 1 in Hrun.
    destruct (setitem track1 "analysis" analysis) as [track2|] eqn:E2;
      [|discriminate].
    unfold bind at 1 in Hrun.
    destruct (add_tracks_information api rest s2) as [[rest'|] s3] eqn:Erest;
      [|discriminate].
    injection Hrun as <- <-. constructor.
    + apply (setitem_aligned _ _ _ _ E2); try discriminate.
      apply (setitem_aligned _ _ _ _ E1); try discriminate. assumption.
    + eapply IH; eassumption.
Qed.

Lemma market_rows_aligned (country_code : string) (tracks : list value) :
  forall rank,
    Forall followers_aligned tracks ->
    Forall (fun row => same_length (nth 3 row VNone) (nth 4 row VNone))
           (market_rows country_code rank tracks).
Proof.
  induction tracks as [|track rest IH]; intros rank Hall; simpl;
    constructor; inversion Hall as [|? ? Htrack Hrest]; subst.
  - destruct Htrack as (artists & followers & Ha & Hf & Hlen).
    simpl. unfold cell. simpl. now rewrite Ha, Hf.
  - now apply IH.
Qed.

Lemma flat_rows_aligned (country_data : dict) :
  (forall country_code tracks,
      In (country_code, VList tracks) country_data ->
      Forall followers_aligned tracks) ->
  Forall (fun row => same_length (nth 3 row VNone) (nth 4 row VNone))
         (flat_rows country_data).
Proof.
  unfold flat_rows.
  induction country_data as [|[code chart] rest IH]; intros H; simpl;
    [constructor|].
  apply Forall_app. split.
  - destruct chart; simpl; try constructor.
    apply market_rows_aligned. apply (H code). now left.
  - apply IH. intros c t Hin. apply (H c). now right.
Qed.

Lemma Forall2_columns (P : value -> value -> Prop) (rows : list (list value))
  (i j : nat) :
  Forall (fun row => P (nth i row VNone) (nth j row VNone)) rows ->
  Forall2 P (column_of rows i) (column_of rows j).
Proof.
  unfold column_of. induction 1; simpl; constructor; assumption.
Qed.

(** C3: every track record the joiner builds lists one follower count per
    artist name, in the order of the names: names and counts are read off
    the same artist entries of the playlist item, the i-th count from the
    artist endpoint's answer for the i-th entry's id.  Enrichment keeps the
    two lists as they are, and so every row of the flattened table has an
    [artists] cell and an [artists_followers] cell of the same length. *)
Theorem artists_followers_aligned :
  (forall (W : Type) (api : SpotifyAPI W) (playlist_id : value)
          (s s' : run_state W) (tracks : list value),
      extract_playlist_tracks api playlist_id s = (Ok tracks, s') ->
      (exists raw w1 items,
          get_tracks_from_playlist api playlist_id (world s) = (Ok raw, w1) /\
          (let? i := getitem raw "items" in py_iter i)%result = Ok items /\
          joined_run api items (after_call s w1) tracks s') /\
      Forall followers_aligned tracks) /\
  (forall (W : Type) (api : SpotifyAPI W) (tracks tracks' : list value)
          (s s' : run_state W),
      add_tracks_information api tracks s = (Ok tracks', s') ->
      Forall followers_aligned tracks ->
      Forall followers_aligned tracks') /\
  (forall country_data : dict,
      is_market_charts country_data = true ->
      (forall country_code tracks,
          In (country_code, VList tracks) country_data ->
          Forall followers_aligned tracks) ->
      exists out artists followers,
        format_extracted_data country_data = Ok out /\
        col_lookup "artists" out = Some artists /\
        col_lookup "artists_followers" out = Some followers /\
        Forall2 same_length artists followers).
Proof.
  split; [|split].
  - intros W api playlist_id s s' tracks Hrun.
    unfold extract_playlist_tracks in Hrun.
    unfold bind at 1 in Hrun.
    destruct (get_tracks_from_playlist api playlist_id (world s))
      as [res w1] eqn:Ecall.
    rewrite (call_eq _ _ _ _ Ecall) in Hrun.
    destruct res as [raw|]; [|discriminate].
    unfold bind at 1 in Hrun. unfold lift at 1 in Hrun.
    destruct (let? i := getitem raw "items" in py_iter i)%result
      as [items|] eqn:Eitems; [|discriminate].
    apply join_items_run in Hrun as (new & -> & Hnew). simpl.
    split.
    + exists raw, w1, items. now repeat split.
    + eapply joined_run_aligned. eassumption.
  - intros W api tracks tracks' s s'. apply add_tracks_information_aligned.
  - intros country_data Hwf Hall.
    exists (table_of (flat_rows country_data)),
           (column_of (flat_rows country_data) 3),
           (column_of (flat_rows country_data) 4).
    split; [now apply format_extracted_data_table|].
    split; [reflexivity|]. split; [reflexivity|].
    apply Forall2_columns. now apply flat_rows_aligned.
Qed.

Ltac solve_aligned :=
  repeat constructor;
  eexists; eexists;
  (split; [reflexivity|split; [reflexivity|]]);
  eexists; eexists; (split; [reflexivity|split; reflexivity]).

Lemma artists_followers_aligned_witness :
  (exists tracks s',
      extract_playlist_tracks sample_api (VStr "p2") sample_start
      = (Ok tracks, s') /\
      tracks = [ sample_track_record "a" "Song A" ["X"] [100%Z];
                 sample_track_record "b" "Song B" ["X"; "Y"] [100%Z; 7%Z] ] /\
      (exists raw w1 items,
          get_tracks_from_playlist sample_api (VStr "p2") (world sample_start)
          = (Ok raw, w1) /\
          (let? i := getitem raw "items" in py_iter i)%result = Ok items /\
          joined_run sample_api items (after_call sample_start w1) tracks s') /\
      Forall followers_aligned tracks) /\
  (exists tracks' s',
      add_tracks_information sample_api
        [sample_track "a" "Song A" ["X"] [100%Z]] sample_start
      = (Ok tracks', s') /\
      Forall followers_aligned tracks') /\
  (exists out artists followers,
      format_extracted_data sample_charts = Ok out /\
      col_lookup "artists" out = Some artists /\
      col_lookup "artists_followers" out = Some followers /\
      Forall2 same_length artists followers).
Proof.
  destruct artists_followers_aligned as (Hjoin & Henrich & Hflat).
  split; [|split].
  - eexists. eexists. split; [reflexivity|]. split; [reflexivity|].
    eapply (Hjoin nat sample_api (VStr "p2") sample_start). reflexivity.
  - eexists. eexists. split; [reflexivity|].
    eapply (Henrich nat sample_api
              [sample_track "a" "Song A" ["X"] [100%Z]] _ sample_start).
    + reflexivity.
    + solve_aligned.
  - apply (Hflat sample_charts); [reflexivity|].
    intros country_code tracks Hin. simpl in Hin.
    destruct Hin as [Hin|[Hin|[]]]; injection Hin as <- <-; solve_aligned.
Defined.

(** ** A chart that cannot be located *)

Lemma bind_inv {W A B} (m : M W A) (k : A -> M W B) (s s' : run_state W)
  (b : B) :
  bind m k s = (Ok b, s') ->
  exists a s1, m s = (Ok a, s1) /\ k a s1 = (Ok b, s').
Proof.
  unfold bind. destruct (m s) as [[a|e] s1]; [eauto|discriminate].
Qed.

Lemma extract_countries_app {W} (api : SpotifyAPI W)
  (before after : list string) :
  forall (country_data : dict) (s : run_state W),
    extract_countries api (before ++ after) country_data s
    = bind (extract_countries api before country_data)
           (extract_countries api after) s.
Proof.
  induction before as [|c rest IH]; intros country_data s; simpl.
  - reflexivity.
  - unfold bind.
    destruct (extract_country api c country_data s) as [[d|e] s1];
      [|reflexivity].
    rewrite IH. reflexivity.
Qed.

Lemma extract_global_miss {W} (api : SpotifyAPI W) (s : run_state W)
  (resp : value) (w' : W) (items : list value) :
  get_playlists_from_category api CATEGORY_ID (VStr "PL") (world s)
    = (Ok resp, w') ->
  getpath resp ["playlists"; "items"] = Ok (VList items) ->
  forallb is_playlist_item items = true ->
  find global_hit items = None ->
  extract_global api s = (Err TypeError, after_call s w').
Proof.
  intros Hcall Hitems Hwf Hnone. unfold extract_global.
  rewrite (bind_ok _ _ _ _ _
             (extract_top50_global_run api _ s resp w' items Hcall Hitems Hwf)).
  rewrite Hnone. reflexivity.
Qed.

Lemma extract_country_miss {W} (api : SpotifyAPI W) (country : string)
  (country_data : dict) (s : run_state W) (resp : value) (w' : W)
  (items : list value) :
  get_playlists_from_category api CATEGORY_ID (VStr country) (world s)
    = (Ok resp, w') ->
  getpath resp ["playlists"; "items"] = Ok (VList items) ->
  forallb is_playlist_item items = true ->
  find market_hit items = None ->
  extract_country api country country_data s
  = (Err TypeError, after_call s w').
Proof.
  intros Hcall Hitems Hwf Hnone. unfold extract_country.
  rewrite (bind_ok _ _ _ _ _
             (extract_top50_playlist_run api _ _ s resp w' items
                Hcall Hitems Hwf)).
  rewrite Hnone. reflexivity.
Qed.

Lemma extract_raw_data_stages {W} (api : SpotifyAPI W)
  (countries : list string) (s s' : run_state W) (country_data : dict) :
  extract_raw_data api countries s = (Ok country_data, s') ->
  exists d0 s0 s1,
    extract_global api s = (Ok d0, s0) /\
    extract_countries api countries d0 s0 = (Ok country_data, s1) /\
    world s' = world s1.
Proof.
  unfold extract_raw_data. intros H.
  apply bind_inv in H as (d0 & s0 & Hglobal & H).
  apply bind_inv in H as (d1 & s1 & Hloop & H).
  unfold bind, print, ret in H. injection H as <- <-.
  exists d0, s0, s1. now repeat split.
Qed.

Lemma extract_raw_data_global_miss {W} (api : SpotifyAPI W)
  (countries : list string) (s : run_state W) (resp : value) (w' : W)
  (items : list value) :
  get_playlists_from_category api CATEGORY_ID (VStr "PL") (world s)
    = (Ok resp, w') ->
  getpath resp ["playlists"; "items"] = Ok (VList items) ->
  forallb is_playlist_item items = true ->
  find global_hit items = None ->
  extract_top50_global api CATEGORY_ID s = (Ok VNone, after_call s w') /\
  extract_raw_data api countries s = (Err TypeError, after_call s w').
Proof.
  intros Hcall Hitems Hwf Hnone. split.
  - rewrite (extract_top50_global_run api _ s resp w' items Hcall Hitems Hwf).
    now rewrite Hnone.
  - unfold extract_raw_data. apply bind_err.
    now apply extract_global_miss with (resp := resp) (items := items).
Qed.

Lemma extract_raw_data_market_miss {W} (api : SpotifyAPI W)
  (before after : list string) (country : string) (s s1 : run_state W)
  (country_data : dict) (resp : value) (w' : W) (items : list value) :
  extract_raw_data api before s = (Ok country_data, s1) ->
  get_playlists_from_category api CATEGORY_ID (VStr country) (world s1)
    = (Ok resp, w') ->
  getpath resp ["playlists"; "items"] = Ok (VList items) ->
  forallb is_playlist_item items = true ->
  find market_hit items = None ->
  (exists s2, extract_top50_playlist api CATEGORY_ID (VStr country) s1
              = (Ok VNone, s2)) /\
  exists s2,
    extract_raw_data api (before ++ country :: after) s = (Err TypeError, s2) /\
    world s2 = w'.
Proof.
  intros Hrun Hcall Hitems Hwf Hnone. split.
  - exists (after_call s1 w').
    rewrite (extract_top50_playlist_run api _ _ s1 resp w' items
               Hcall Hitems Hwf).
    now rewrite Hnone.
  - apply extract_raw_data_stages in Hrun as (d0 & s0 & s1' & Hg & Hloop & Hw).
    rewrite Hw in Hcall.
    exists (after_call s1' w'). split; [|reflexivity].
    unfold extract_raw_data. rewrite (bind_ok _ _ _ _ _ Hg).
    apply bind_err. rewrite extract_countries_app.
    rewrite (bind_ok _ _ _ _ _ Hloop). simpl. apply bind_err.
    now apply extract_country_miss with (resp := resp) (items := items).
Qed.

(** C9, amended: when no item of a well-formed listing satisfies the
    selection predicate the locator returns [None], and the aggregator then
    fails for the whole run with [TypeError], raised by subscripting that
    [None]; no market is skipped and no data is returned. *)
Theorem locator_miss_aborts_run :
  (forall (W : Type) (api : SpotifyAPI W) (countries : list string)
          (s : run_state W) (resp : value) (w' : W) (items : list value),
      get_playlists_from_category api CATEGORY_ID (VStr "PL") (world s)
        = (Ok resp, w') ->
      getpath resp ["playlists"; "items"] = Ok (VList items) ->
      forallb is_playlist_item items = true ->
      find global_hit items = None ->
      extract_top50_global api CATEGORY_ID s = (Ok VNone, after_call s w') /\
      extract_raw_data api countries s = (Err TypeError, after_call s w')) /\
  (forall (W : Type) (api : SpotifyAPI W) (before after : list string)
          (country : string) (s s1 : run_state W) (country_data : dict)
          (resp : value) (w' : W) (items : list value),
      extract_raw_data api before s = (Ok country_data, s1) ->
      get_playlists_from_category api CATEGORY_ID (VStr country) (world s1)
        = (Ok resp, w') ->
      getpath resp ["playlists"; "items"] = Ok (VList items) ->
      forallb is_playlist_item items = true ->
      find market_hit items = None ->
      (exists s2, extract_top50_playlist api CATEGORY_ID (VStr country) s1
                  = (Ok VNone, s2)) /\
      exists s2,
        extract_raw_data api (before ++ country :: after) s
        = (Err TypeError, s2) /\
        world s2 = w').
Proof.
  split; intros.
  - eapply extract_raw_data_global_miss; eassumption.
  - eapply extract_raw_data_market_miss; eassumption.
Qed.

Lemma locator_miss_aborts_run_witness :
  (extract_top50_global miss_api CATEGORY_ID sample_start
   = (Ok VNone, after_call sample_start 1%nat) /\
   extract_raw_data miss_api ["DE"] sample_start
   = (Err TypeError, after_call sample_start 1%nat)) /\
  ((exists s2,
       extract_top50_playlist market_miss_api CATEGORY_ID (VStr "DE")
         (Build_run_state 9%nat [VStr "Top 50 - Świat"; VStr banner] 0)
       = (Ok VNone, s2)) /\
   exists s2,
     extract_raw_data market_miss_api ([] ++ "DE" :: ["FR"]) sample_start
     = (Err TypeError, s2) /\
     world s2 = 10%nat).
Proof.
  destruct locator_miss_aborts_run as (Hglobal & Hmarket).
  split.
  - apply (Hglobal nat miss_api ["DE"] sample_start (listing_of miss_items)
             1%nat miss_items); reflexivity.
  - eapply (Hmarket nat market_miss_api [] ["FR"] "DE" sample_start
              (Build_run_state 9%nat [VStr "Top 50 - Świat"; VStr banner] 0)
              _ (listing_of miss_items) 10%nat miss_items); reflexivity.
Defined.

(** C9 as stated fails: on a catalog without a global chart the run is
    aborted by [TypeError], not by a key error. *)
Lemma locator_miss_is_not_key_error :
  find global_hit miss_items = None /\
  extract_top50_global miss_api CATEGORY_ID sample_start
  = (Ok VNone, after_call sample_start 1%nat) /\
  fst (extract_raw_data miss_api ["DE"] sample_start) = Err TypeError /\
  forall key,
    fst (extract_raw_data miss_api ["DE"] sample_start) <> Err (KeyError key).
Proof.
  repeat split; try reflexivity.
  intros key H. vm_compute in H. discriminate.
Qed.

(** * Further properties *)

(** ** What the columns hold *)

Lemma row_of_cell (country_code : string) (rank : Z) (track : value) (i : nat) :
  (i < 21)%nat ->
  nth (2 + i) (row_of country_code rank track) VNone
  = cell track (nth i field_paths []).
Proof.
  intros Hi.
  do 21 (destruct i as [|i]; [reflexivity|]). lia.
Qed.

Lemma table_of_column (rows : list (list value)) (i : nat) :
  (i < 23)%nat ->
  col_lookup (nth i column_names "") (table_of rows) = Some (column_of rows i).
Proof.
  intros Hi.
  do 23 (destruct i as [|i]; [reflexivity|]). lia.
Qed.

Lemma column_of_app (rows rows' : list (list value)) (i : nat) :
  column_of (rows ++ rows') i = column_of rows i ++ column_of rows' i.
Proof. unfold column_of. apply map_app. Qed.

Lemma market_rows_market_column (country_code : string) (tracks : list value) :
  forall rank,
    column_of (market_rows country_code rank tracks) 0
    = repeat (VStr country_code) (length tracks).
Proof.
  induction tracks as [|t rest IH]; intros rank; [reflexivity|].
  change (column_of (market_rows country_code rank (t :: rest)) 0)
    with (VStr country_code
          :: column_of (market_rows country_code (rank + 1) rest) 0).
  simpl. now rewrite IH.
Qed.

Lemma market_rows_field_column (country_code : string) (tracks : list value)
  (i : nat) :
  (i < 21)%nat ->
  forall rank,
    column_of (market_rows country_code rank tracks) (2 + i)
    = map (fun track => cell track (nth i field_paths [])) tracks.
Proof.
  intros Hi. induction tracks as [|t rest IH]; intros rank; [reflexivity|].
  change (column_of (market_rows country_code rank (t :: rest)) (2 + i))
    with (nth (2 + i) (row_of country_code rank t) VNone
          :: column_of (market_rows country_code (rank + 1) rest) (2 + i)).
  rewrite row_of_cell by assumption. simpl. now rewrite IH.
Qed.

Lemma flat_rows_market_column (country_data : dict) :
  column_of (flat_rows country_data) 0 = market_column country_data.
Proof.
  unfold flat_rows, market_column.
  induction country_data as [|[code chart] rest IH]; [reflexivity|].
  simpl. now rewrite column_of_app, market_rows_market_column, IH.
Qed.

Lemma flat_rows_field_column (country_data : dict) (i : nat) :
  (i < 21)%nat ->
  column_of (flat_rows country_data) (2 + i)
  = map (fun track => cell track (nth i field_paths []))
        (all_tracks country_data).
Proof.
  intros Hi. unfold flat_rows, all_tracks.
  induction country_data as [|[code chart] rest IH]; [reflexivity|].
  cbn [map concat flat_map fst snd].
  rewrite column_of_app, market_rows_field_column by assumption.
  now rewrite map_app, IH.
Qed.

Lemma enriched_cell (track : value) (i : nat) :
  is_enriched_track track = true -> (i < 21)%nat ->
  getpath track (nth i field_paths [])
  = Ok (cell track (nth i field_paths [])).
Proof.
  intros Ht Hi. unfold is_enriched_track in Ht.
  rewrite forallb_forall in Ht.
  assert (resolves track (nth i field_paths []) = true) as Hr.
  { apply Ht. apply nth_In. exact Hi. }
  unfold resolves in Hr. unfold cell.
  now destruct (getpath track (nth i field_paths [])).
Qed.

Lemma all_tracks_enriched (country_data : dict) :
  forallb (fun kv => is_chart (snd kv)) country_data = true ->
  Forall (fun track => is_enriched_track track = true)
         (all_tracks country_data).
Proof.
  unfold all_tracks.
  induction country_data as [|[code chart] rest IH]; simpl; intros H;
    [constructor|].
  apply andb_true_iff in H as [Hc Hrest]. apply Forall_app. split; [|auto].
  destruct chart; simpl in *; try constructor.
  now apply Forall_forall, forallb_forall.
Qed.

(** X1: the flattener neither sorts, filters nor deduplicates.  The
    [market] column repeats each market code once per track, and the column
    of every track field lists that field of all tracks, market after
    market and in chart order. *)
Theorem format_extracted_data_column_contents (country_data : dict) :
  is_market_charts country_data = true ->
  exists out,
    format_extracted_data country_data = Ok out /\
    col_lookup "market" out = Some (market_column country_data) /\
    forall i,
      (i < 21)%nat ->
      exists vals,
        col_lookup (nth (2 + i) column_names "") out = Some vals /\
        Forall2 (fun track v => getpath track (nth i field_paths []) = Ok v)
                (all_tracks country_data) vals.
Proof.
  intros H. exists (table_of (flat_rows country_data)).
  split; [now apply format_extracted_data_table|].
  apply andb_true_iff in H as [_ Hcharts]. split.
  - rewrite <- flat_rows_market_column. reflexivity.
  - intros i Hi.
    exists (column_of (flat_rows country_data) (2 + i)). split.
    + apply table_of_column. lia.
    + rewrite flat_rows_field_column by assumption.
      pose proof (all_tracks_enriched country_data Hcharts) as Hall.
      induction Hall as [|t l Ht _ IH]; simpl; constructor; [|exact IH].
      now apply enriched_cell.
Qed.

Lemma format_extracted_data_column_contents_witness :
  exists out,
    format_extracted_data sample_charts = Ok out /\
    col_lookup "market" out = Some (market_column sample_charts) /\
    forall i,
      (i < 21)%nat ->
      exists vals,
        col_lookup (nth (2 + i) column_names "") out = Some vals /\
        Forall2 (fun track v => getpath track (nth i field_paths []) = Ok v)
                (all_tracks sample_charts) vals.
Proof.
  apply (format_extracted_data_column_contents sample_charts). reflexivity.
Defined.

(** ** The flattener on arbitrary input *)

Lemma append_item_ok (name : string) (arg : result value) (fd fd' : columns) :
  append_item name arg fd = Ok fd' -> exists v, arg = Ok v.
Proof.
  unfold append_item. destruct (col_lookup name fd); [|discriminate].
  destruct arg; [eauto|discriminate].
Qed.

Lemma getitem_resolves (track : value) (k : string) (v : value) :
  getitem track k = Ok v -> resolves track [k] = true.
Proof. unfold resolves. simpl. now intros ->. Qed.

Lemma getitem2_resolves (track : value) (outer inner : string) (v : value) :
  getitem2 track outer inner = Ok v -> resolves track [outer; inner] = true.
Proof.
  unfold resolves, getitem2. simpl.
  destruct (getitem track outer) as [o|]; simpl; [|discriminate].
  now intros ->.
Qed.

(** The loop body succeeds only on a track that has every field. *)
Lemma append_row_enriched (country_code : string) (rank : Z) (track : value)
  (fd fd' : columns) :
  append_row country_code rank track fd = Ok fd' ->
  is_enriched_track track = true.
Proof.
  unfold append_row. intros H.
  repeat match type of H with
         | rbind (append_item ?n ?a ?f) _ = Ok _ =>
             let E := fresh "E" in
             destruct (append_item n a f) eqn:E; [simpl in H|discriminate];
             apply append_item_ok in E as [? E]
         end.
  apply append_item_ok in H as [? H].
  unfold is_enriched_track. cbn [forallb field_paths].
  repeat match goal with
         | E : getitem _ _ = Ok _ |- _ =>
             apply getitem_resolves in E; rewrite E; clear E
         | E : getitem2 _ _ _ = Ok _ |- _ =>
             apply getitem2_resolves in E; rewrite E; clear E
         end.
  reflexivity.
Qed.

Lemma format_tracks_enriched (country_code : string) (tracks : list value) :
  forall (rank : Z) (rows : list (list value)) (out : columns),
    format_tracks country_code rank tracks (table_of rows) = Ok out ->
    forallb is_enriched_track tracks = true.
Proof.
  induction tracks as [|track rest IH]; intros rank rows out H; [reflexivity|].
  simpl in H.
  destruct (append_row country_code rank track (table_of rows)) as [fd|] eqn:E;
    [|discriminate].
  pose proof (append_row_enriched _ _ _ _ _ E) as Ht.
  rewrite append_row_table in E by assumption. injection E as <-.
  simpl in *. rewrite Ht. simpl. eapply IH. eassumption.
Qed.

Lemma format_markets_shape (country_data : dict) (codes : list string) :
  forall (rows : list (list value)) (out : columns),
    format_markets country_data codes (table_of rows) = Ok out ->
    (exists rows', out = table_of rows') /\
    forall code chart,
      In code codes -> dict_lookup code country_data = Some chart ->
      exists tracks,
        py_iter chart = Ok tracks /\ forallb is_enriched_track tracks = true.
Proof.
  induction codes as [|c rest IH]; intros rows out H.
  - injection H as <-. split; [eauto|]. intros ? ? [].
  - simpl in H. unfold dict_getitem in H.
    destruct (dict_lookup c country_data) as [chart|] eqn:Ec; [|discriminate].
    simpl in H. destruct (py_iter chart) as [tracks|] eqn:Et; [|discriminate].
    simpl in H.
    destruct (format_tracks c 1 tracks (table_of rows)) as [fd|] eqn:Ef;
      [|discriminate].
    pose proof (format_tracks_enriched _ _ _ _ _ Ef) as Hall.
    rewrite format_tracks_table in Ef by assumption. injection Ef as <-.
    simpl in H. destruct (IH _ _ H) as [Hshape Hrest]. split; [assumption|].
    intros code chart' [<-|Hin] Hlook; [|eauto].
    rewrite Ec in Hlook. injection Hlook as <-. eauto.
Qed.

(** X2: whatever mapping it is given, a table the flattener returns is
    rectangular: it has the 23 fixed columns and all of them have the same
    length. *)
Theorem format_extracted_data_rectangular (country_data : dict)
  (out : columns) :
  format_extracted_data country_data = Ok out ->
  map fst out = column_names /\
  exists n, forall name vals, In (name, vals) out -> length vals = n.
Proof.
  unfold format_extracted_data. change formatted_data_init with (table_of []).
  intros H. apply format_markets_shape in H as [[rows ->] _]. split.
  - apply table_of_keys.
  - exists (length rows). intros name vals. apply table_of_column_length.
Qed.

Lemma format_extracted_data_rectangular_witness :
  map fst (table_of (flat_rows sample_charts)) = column_names /\
  exists n,
    forall name vals,
      In (name, vals) (table_of (flat_rows sample_charts)) -> length vals = n.
Proof.
  apply (format_extracted_data_rectangular sample_charts). reflexivity.
Defined.

(** X3: one track that lacks any of the 21 fields makes the whole call
    raise; no partial table is returned. *)
Theorem format_extracted_data_missing_field (country_data : dict)
  (country_code : string) (tracks : list value) (track : value) :
  NoDup (map fst country_data) ->
  In (country_code, VList tracks) country_data ->
  In track tracks ->
  is_enriched_track track = false ->
  exists e, format_extracted_data country_data = Err e.
Proof.
  intros Hnd Hin Ht Hbad.
  destruct (format_extracted_data country_data) as [out|e] eqn:E; [|eauto].
  exfalso. unfold format_extracted_data in E.
  change formatted_data_init with (table_of []) in E.
  apply format_markets_shape in E as [_ Hall].
  destruct (Hall country_code (VList tracks)) as (l & Hl & Hen).
  - apply in_map_iff. now exists (country_code, VList tracks).
  - now apply dict_lookup_in.
  - injection Hl as <-. rewrite forallb_forall in Hen.
    rewrite (Hen _ Ht) in Hbad. discriminate.
Qed.

Lemma format_extracted_data_missing_field_witness :
  exists e, format_extracted_data sample_bare_charts = Err e.
Proof.
  apply (format_extracted_data_missing_field sample_bare_charts "GLOBAL"
           [sample_track "a" "Song A" ["X"] [100%Z]; sample_bare_track]
           sample_bare_track).
  - apply nodupb_NoDup. reflexivity.
  - simpl. tauto.
  - simpl. tauto.
  - reflexivity.
Defined.

(** ** Records built by the joiner *)

Lemma dict_set_keys (k : string) (v x : value) (d : dict) :
  dict_lookup k d = Some x -> map fst (dict_set k v d) = map fst d.
Proof.
  induction d as [|[k' v'] d IH]; simpl; [discriminate|].
  destruct (String.eqb k' k); simpl; [reflexivity|].
  intros H. now rewrite IH.
Qed.

Lemma track_data_dict_of_shape (item : value) (d : dict) :
  track_data_dict_of item = Ok d ->
  map fst d = track_keys /\
  dict_getitem d "name" = getpath item ["track"; "name"] /\
  dict_getitem d "id" = getpath item ["track"; "id"] /\
  dict_getitem d "album" = getpath item ["track"; "album"; "name"] /\
  dict_getitem d "release_date"
    = getpath item ["track"; "album"; "release_date"] /\
  dict_getitem d "popularity" = getpath item ["track"; "popularity"].
Proof.
  unfold track_data_dict_of. intros H. simpl.
  destruct (getitem item "track") as [track|]; simpl in *; [|discriminate].
  destruct (getitem track "name"); simpl in *; [|discriminate].
  destruct (getitem track "artists") as [arts|]; simpl in *; [|discriminate].
  destruct (py_iter arts) as [artl|]; simpl in *; [|discriminate].
  destruct (rmapM (fun artist => getitem artist "name") artl) as [names|];
    simpl in *; [|discriminate].
  destruct (getitem track "id"); simpl in *; [|discriminate].
  destruct (getitem track "album") as [album|]; simpl in *; [|discriminate].
  destruct (getitem album "name"); simpl in *; [|discriminate].
  destruct (getitem album "release_date"); simpl in *; [|discriminate].
  destruct (getitem track "popularity"); simpl in *; [|discriminate].
  injection H as <-. repeat split.
Qed.

Lemma add_followers_keeps {W} (api : SpotifyAPI W) (artists : list value) :
  forall (d d' : dict) (s s' : run_state W) (before : list value),
    add_followers api artists d s = (Ok d', s') ->
    dict_lookup "artists_followers" d = Some (VList before) ->
    map fst d' = map fst d /\
    forall k, k <> "artists_followers" -> dict_lookup k d' = dict_lookup k d.
Proof.
  induction artists as [|a rest IH]; intros d d' s s' before Hrun Hlook.
  - injection Hrun as <- <-. now split.
  - simpl in Hrun. unfold bind, lift, call in Hrun.
    destruct (getitem a "id") as [aid|]; [|discriminate].
    destruct (get_artist_info api aid (world s)) as [[resp|] w1];
      [|discriminate].
    unfold list_append in Hrun. rewrite Hlook in Hrun.
    destruct (let? f := getitem resp "followers" in getitem f "total")%result
      as [count|]; [|discriminate].
    apply IH with (before := before ++ [count]) in Hrun;
      [|apply dict_lookup_set_same].
    destruct Hrun as [Hkeys Hother]. split.
    + rewrite Hkeys. eapply dict_set_keys. eassumption.
    + intros k Hk. rewrite Hother by assumption.
      now apply dict_lookup_set_other.
Qed.

Lemma join_items_built {W} (api : SpotifyAPI W) (items : list value) :
  forall (acc tracks : list value) (s s' : run_state W),
    join_items api items acc s = (Ok tracks, s') ->
    exists new, tracks = acc ++ new /\ Forall2 built_from items new.
Proof.
  induction items as [|item rest IH]; intros acc tracks s s' Hrun.
  - injection Hrun as <- <-. exists []. rewrite app_nil_r. split; constructor.
  - simpl in Hrun. unfold bind at 1 in Hrun. unfold lift at 1 in Hrun.
    destruct (track_data_dict_of item) as [d|] eqn:Ed; [|discriminate].
    destruct (track_data_dict_of_fields item d Ed)
      as (artists & names & Hartists & _ & Hf & _).
    destruct (track_data_dict_of_shape item d Ed)
      as (Hkeys & Hn & Hi & Ha & Hr & Hp).
    unfold bind at 1 in Hrun. unfold lift at 1 in Hrun.
    rewrite Hartists in Hrun. unfold bind at 1 in Hrun.
    destruct (add_followers api artists d s) as [[d'|] s1] eqn:Eadd;
      [|discriminate].
    destruct (add_followers_keeps api artists d d' s s1 [] Eadd Hf)
      as [Hkeys' Hother].
    apply IH in Hrun as (new & -> & Hnew).
    exists (VDict d' :: new). rewrite <- app_assoc. split; [reflexivity|].
    constructor; [|assumption].
    exists d'. unfold getitem, dict_getitem in *.
    rewrite !Hother by discriminate.
    repeat split; try assumption. congruence.
Qed.

(** X4: a successful [extract_playlist_tracks] returns one record per
    playlist item, in playlist order; each record is a dict with exactly
    the seven keys of the literal and carries the item's name, id, album
    name, release date and popularity. *)
Theorem extract_playlist_tracks_records (W : Type) (api : SpotifyAPI W)
  (playlist_id : value) (s s' : run_state W) (raw : value) (w1 : W)
  (items tracks : list value) :
  get_tracks_from_playlist api playlist_id (world s) = (Ok raw, w1) ->
  getitem raw "items" = Ok (VList items) ->
  extract_playlist_tracks api playlist_id s = (Ok tracks, s') ->
  Forall2 built_from items tracks.
Proof.
  intros Hcall Hitems Hrun. unfold extract_playlist_tracks in Hrun.
  rewrite (bind_ok _ _ _ _ _ (call_eq _ _ _ _ Hcall)) in Hrun.
  unfold bind at 1 in Hrun. unfold lift at 1 in Hrun.
  rewrite Hitems in Hrun. simpl in Hrun.
  apply join_items_built in Hrun as (new & -> & Hnew). exact Hnew.
Qed.

Lemma extract_playlist_tracks_records_witness :
  Forall2 built_from
    [ sample_playlist_entry "a" "Song A" [sample_artist "x" "X"];
      sample_playlist_entry "b" "Song B"
        [sample_artist "x" "X"; sample_artist "y" "Y"] ]
    [ sample_track_record "a" "Song A" ["X"] [100%Z];
      sample_track_record "b" "Song B" ["X"; "Y"] [100%Z; 7%Z] ].
Proof.
  apply (extract_playlist_tracks_records nat sample_api (VStr "p2")
           sample_start (Build_run_state 4%nat [] 0) sample_playlist 1%nat);
    reflexivity.
Defined.

(** ** Requests sent by the joiner *)

Lemma call_record {W} (f : W -> result value * W) (r : request)
  (s : run_state (W * list request)) :
  call (record f r) s
  = (fst (f (fst (world s))),
     Build_run_state (snd (f (fst (world s))), requests s ++ [r])
                     (console s) (slept s)).
Proof.
  unfold call, record, requests. now destruct (f (fst (world s))).
Qed.

Lemma add_followers_requests {W} (api : SpotifyAPI W) (artists : list value) :
  forall (d d' : dict) (s s' : run_state (W * list request)),
    add_followers (logged api) artists d s = (Ok d', s') ->
    requests s' = requests s ++ map artist_request artists.
Proof.
  induction artists as [|a rest IH]; intros d d' s s' Hrun.
  - injection Hrun as _ <-. now rewrite app_nil_r.
  - simpl in Hrun. unfold bind at 1 in Hrun. unfold lift at 1 in Hrun.
    destruct (getitem a "id") as [aid|] eqn:Eid; [|discriminate].
    unfold bind at 1 in Hrun. rewrite call_record in Hrun.
    destruct (fst (get_artist_info api aid (fst (world s)))) as [resp|];
      [|discriminate].
    unfold bind at 1 in Hrun. unfold lift at 1 in Hrun.
    destruct (list_append d "artists_followers" _) as [d1|]; [|discriminate].
    apply IH in Hrun. rewrite Hrun. unfold requests at 1. simpl.
    rewrite <- app_assoc. f_equal. simpl. f_equal.
    unfold artist_request, cell. simpl. now rewrite Eid.
Qed.

Lemma join_items_requests {W} (api : SpotifyAPI W) (items : list value) :
  forall (acc tracks : list value) (s s' : run_state (W * list request)),
    join_items (logged api) items acc s = (Ok tracks, s') ->
    requests s'
    = requests s
      ++ flat_map (fun item => map artist_request (item_artists item)) items.
Proof.
  induction items as [|item rest IH]; intros acc tracks s s' Hrun.
  - injection Hrun as _ <-. now rewrite app_nil_r.
  - simpl in Hrun. unfold bind at 1 in Hrun. unfold lift at 1 in Hrun.
    destruct (track_data_dict_of item) as [d|]; [|discriminate].
    unfold bind at 1 in Hrun. unfold lift at 1 in Hrun.
    destruct (let? t := getitem item "track" in
              let? a := getitem t "artists" in py_iter a)%result
      as [artists|] eqn:Ea; [|discriminate].
    unfold bind at 1 in Hrun.
    destruct (add_followers (logged api) artists d s) as [[d'|] s1] eqn:Eadd;
      [|discriminate].
    apply add_followers_requests in Eadd. apply IH in Hrun.
    rewrite Hrun, Eadd. simpl. rewrite <- app_assoc. f_equal. f_equal.
    unfold item_artists. now rewrite Ea.
Qed.

(** X5: the fan-out of the joiner.  A successful [extract_playlist_tracks]
    sends one playlist request and then, item after item and artist after
    artist, one artist request per artist entry (an artist credited on
    several tracks is asked for again each time). *)
Theorem extract_playlist_tracks_requests (W : Type) (api : SpotifyAPI W)
  (playlist_id : value) (s s' : run_state (W * list request)) (raw : value)
  (w1 : W) (items tracks : list value) :
  get_tracks_from_playlist api playlist_id (fst (world s)) = (Ok raw, w1) ->
  getitem raw "items" = Ok (VList items) ->
  extract_playlist_tracks (logged api) playlist_id s = (Ok tracks, s') ->
  requests s'
  = requests s
    ++ ReqTracks playlist_id
       :: flat_map (fun item => map artist_request (item_artists item)) items.
Proof.
  intros Hcall Hitems Hrun. unfold extract_playlist_tracks in Hrun.
  unfold bind at 1 in Hrun. simpl in Hrun. rewrite call_record in Hrun.
  rewrite Hcall in Hrun. simpl in Hrun.
  unfold bind at 1 in Hrun. unfold lift at 1 in Hrun.
  rewrite Hitems in Hrun. simpl in Hrun.
  apply join_items_requests in Hrun. rewrite Hrun.
  unfold requests at 1. simpl. now rewrite <- app_assoc.
Qed.

Lemma extract_playlist_tracks_requests_witness :
  exists tracks s',
    extract_playlist_tracks (logged sample_api) (VStr "p2")
      (Build_run_state (0%nat, []) [] 0) = (Ok tracks, s') /\
    requests s'
    = [ ReqTracks (VStr "p2"); ReqArtist (VStr "x"); ReqArtist (VStr "x");
        ReqArtist (VStr "y") ].
Proof.
  eexists. eexists. split; [reflexivity|].
  eapply (extract_playlist_tracks_requests nat sample_api (VStr "p2")
            (Build_run_state (0%nat, []) [] 0) _ sample_playlist 1%nat
            [ sample_playlist_entry "a" "Song A" [sample_artist "x" "X"];
              sample_playlist_entry "b" "Song B"
                [sample_artist "x" "X"; sample_artist "y" "Y"] ]);
    reflexivity.
Defined.

(** ** Enrichment *)

Lemma extract_track_features_keys {W} (api : SpotifyAPI W) (track_id : value)
  (s s' : run_state W) (f : value) :
  extract_track_features api track_id s = (Ok f, s') ->
  exists d, f = VDict d /\ map fst d = feature_keys.
Proof.
  unfold extract_track_features. intros H.
  apply bind_inv in H as (features & s1 & _ & H).
  unfold lift in H. injection H as H _.
  repeat match type of H with
         | rbind ?r _ = Ok _ => destruct r; simpl in H; [|discriminate]
         end.
  injection H as <-. eexists. split; reflexivity.
Qed.

Lemma extract_track_audio_analysis_keys {W} (api : SpotifyAPI W)
  (track_id : value) (s s' : run_state W) (a : value) :
  extract_track_audio_analysis api track_id s = (Ok a, s') ->
  exists d, a = VDict d /\ map fst d = analysis_keys.
Proof.
  unfold extract_track_audio_analysis. intros H.
  apply bind_inv in H as (analysis & s1 & _ & H).
  unfold lift in H. injection H as H _.
  repeat match type of H with
         | rbind ?r _ = Ok _ => destruct r; simpl in H; [|discriminate]
         end.
  injection H as <-. eexists. split; reflexivity.
Qed.

Lemma setitem_get (track track' : value) (k : string) (v : value) :
  setitem track k v = Ok track' -> getitem track' k = Ok v.
Proof.
  destruct track; simpl; try discriminate.
  intros [= <-]. unfold getitem, dict_getitem.
  now rewrite dict_lookup_set_same.
Qed.

Lemma add_tracks_information_enriched {W} (api : SpotifyAPI W)
  (tracks : list value) :
  forall (tracks' : list value) (s s' : run_state W),
    add_tracks_information api tracks s = (Ok tracks', s') ->
    Forall2 enriched_from tracks tracks'.
Proof.
  induction tracks as [|track rest IH]; intros tracks' s s' Hrun.
  - injection Hrun as <- _. constructor.
  - simpl in Hrun. unfold bind at 1 in Hrun. unfold lift at 1 in Hrun.
    destruct (getitem track "id") as [id1|]; [|discriminate].
    unfold bind at 1 in Hrun.
    destruct (extract_track_features api id1 s) as [[features|] s1] eqn:Ef;
      [|discriminate].
    unfold bind at 1 in Hrun. unfold lift at 1 in Hrun.
    destruct (setitem track "features" features) as [track1|] eqn:E1;
      [|discriminate].
    unfold bind at 1 in Hrun. unfold lift at 1 in Hrun.
    destruct (getitem track1 "id") as [id2|]; [|discriminate].
    unfold bind at 1 in Hrun.
    destruct (extract_track_audio_analysis api id2 s1) as [[analysis|] s2]
      eqn:Ea; [|discriminate].
    unfold bind at 1 in Hrun. unfold lift at 1 in Hrun.
    destruct (setitem track1 "analysis" analysis) as [track2|] eqn:E2;
      [|discriminate].
    unfold bind at 1 in Hrun.
    destruct (add_tracks_information api rest s2) as [[rest'|] s3] eqn:Erest;
      [|discriminate].
    injection Hrun as <- _. constructor; [|eapply IH; eassumption].
    destruct (extract_track_features_keys _ _ _ _ _ Ef) as (fd & -> & Hfk).
    destruct (extract_track_audio_analysis_keys _ _ _ _ _ Ea)
      as (ad & -> & Hak).
    repeat split.
    + intros k Hf Ha.
      rewrite (setitem_keeps _ _ _ k _ E2) by assumption.
      now rewrite (setitem_keeps _ _ _ k _ E1).
    + exists fd. split; [|assumption].
      rewrite (setitem_keeps _ _ _ "features" _ E2) by discriminate.
      apply (setitem_get _ _ _ _ E1).
    + exists ad. split; [|assumption]. apply (setitem_get _ _ _ _ E2).
Qed.

(** X6: a successful [add_tracks_information] returns the tracks in the
    same order and number; each keeps all its entries and gains a
    [features] dict with exactly the ten audio-feature keys and an
    [analysis] dict with exactly the four summary keys. *)
Theorem add_tracks_information_records (W : Type) (api : SpotifyAPI W)
  (tracks tracks' : list value) (s s' : run_state W) :
  add_tracks_information api tracks s = (Ok tracks', s') ->
  length tracks' = length tracks /\
  Forall2 enriched_from tracks tracks'.
Proof.
  intros Hrun. apply add_tracks_information_enriched in Hrun.
  split; [|assumption]. symmetry. eapply Forall2_length. eassumption.
Qed.

Lemma add_tracks_information_records_witness :
  exists tracks' s',
    add_tracks_information sample_api
      [ sample_track_record "a" "Song A" ["X"] [100%Z];
        sample_track_record "b" "Song B" ["X"; "Y"] [100%Z; 7%Z] ]
      sample_start = (Ok tracks', s') /\
    length tracks' = 2%nat /\
    Forall2 enriched_from
      [ sample_track_record "a" "Song A" ["X"] [100%Z];
        sample_track_record "b" "Song B" ["X"; "Y"] [100%Z; 7%Z] ]
      tracks'.
Proof.
  eexists. eexists. split; [reflexivity|].
  eapply (add_tracks_information_records nat sample_api
            [ sample_track_record "a" "Song A" ["X"] [100%Z];
              sample_track_record "b" "Song B" ["X"; "Y"] [100%Z; 7%Z] ]
            _ sample_start).
  reflexivity.
Defined.

Lemma extract_track_features_requests {W} (api : SpotifyAPI W)
  (track_id : value) (s s' : run_state (W * list request))
  (r : result value) :
  extract_track_features (logged api) track_id s = (r, s') ->
  requests s' = requests s ++ [ReqFeatures track_id].
Proof.
  unfold extract_track_features, bind. simpl. rewrite call_record.
  destruct (fst (get_track_features api track_id (fst (world s))));
    unfold lift; now intros [= _ <-].
Qed.

Lemma extract_track_audio_analysis_requests {W} (api : SpotifyAPI W)
  (track_id : value) (s s' : run_state (W * list request))
  (r : result value) :
  extract_track_audio_analysis (logged api) track_id s = (r, s') ->
  requests s' = requests s ++ [ReqAnalysis track_id].
Proof.
  unfold extract_track_audio_analysis, bind. simpl. rewrite call_record.
  destruct (fst (get_track_audio_analysis api track_id (fst (world s))));
    unfold lift; now intros [= _ <-].
Qed.

(** X7: a successful [add_tracks_information] sends, track after track,
    one audio-features request and then one audio-analysis request for the
    track's id, and nothing else. *)
Theorem add_tracks_information_requests (W : Type) (api : SpotifyAPI W)
  (tracks : list value) :
  forall (tracks' : list value) (s s' : run_state (W * list request)),
    add_tracks_information (logged api) tracks s = (Ok tracks', s') ->
    requests s' = requests s ++ flat_map track_requests tracks.
Proof.
  induction tracks as [|track rest IH]; intros tracks' s s' Hrun.
  - injection Hrun as _ <-. now rewrite app_nil_r.
  - simpl in Hrun. unfold bind at 1 in Hrun. unfold lift at 1 in Hrun.
    destruct (getitem track "id") as [id1|] eqn:Eid; [|discriminate].
    unfold bind at 1 in Hrun.
    destruct (extract_track_features (logged api) id1 s)
      as [[features|] s1] eqn:Ef; [|discriminate].
    unfold bind at 1 in Hrun. unfold lift at 1 in Hrun.
    destruct (setitem track "features" features) as [track1|] eqn:E1;
      [|discriminate].
    unfold bind at 1 in Hrun. unfold lift at 1 in Hrun.
    rewrite (setitem_keeps _ _ _ "id" _ E1) in Hrun by discriminate.
    rewrite Eid in Hrun.
    unfold bind at 1 in Hrun.
    destruct (extract_track_audio_analysis (logged api) id1 s1)
      as [[analysis|] s2] eqn:Ea; [|discriminate].
    unfold bind at 1 in Hrun. unfold lift at 1 in Hrun.
    destruct (setitem track1 "analysis" analysis) as [track2|];
      [|discriminate].
    unfold bind at 1 in Hrun.
    destruct (add_tracks_information (logged api) rest s2)
      as [[rest'|] s3] eqn:Erest; [|discriminate].
    injection Hrun as _ <-.
    apply IH in Erest. apply extract_track_features_requests in Ef.
    apply extract_track_audio_analysis_requests in Ea.
    rewrite Erest, Ea, Ef. simpl. rewrite <- !app_assoc. simpl.
    unfold cell. simpl. now rewrite Eid.
Qed.

Lemma add_tracks_information_requests_witness :
  exists tracks' s',
    add_tracks_information (logged sample_api)
      [ sample_track_record "a" "Song A" ["X"] [100%Z];
        sample_track_record "b" "Song B" ["X"; "Y"] [100%Z; 7%Z] ]
      (Build_run_state (0%nat, []) [] 0) = (Ok tracks', s') /\
    requests s'
    = [ ReqFeatures (VStr "a"); ReqAnalysis (VStr "a");
        ReqFeatures (VStr "b"); ReqAnalysis (VStr "b") ].
Proof.
  eexists. eexists. split; [reflexivity|].
  eapply (add_tracks_information_requests nat sample_api
            [ sample_track_record "a" "Song A" ["X"] [100%Z];
              sample_track_record "b" "Song B" ["X"; "Y"] [100%Z; 7%Z] ]
            _ (Build_run_state (0%nat, []) [] 0)).
  reflexivity.
Defined.

(** ** Stages of the aggregator *)

Lemma lift_inv {W A} (r : result A) (s s' : run_state W) (a : A) :
  lift r s = (Ok a, s') -> r = Ok a /\ s' = s.
Proof. unfold lift. now intros [= -> ->]. Qed.

Lemma extract_global_inv {W} (api : SpotifyAPI W) (s s' : run_state W)
  (country_data : dict) :
  extract_global api s = (Ok country_data, s') ->
  exists ref name id tracks tracks' s1 s2,
    extract_top50_global api CATEGORY_ID s = (Ok ref, s1) /\
    getitem ref "id" = Ok id /\
    getitem ref "name" = Ok name /\
    extract_playlist_tracks api id s1 = (Ok tracks, s2) /\
    add_tracks_information api tracks (printed s2 name) = (Ok tracks', s') /\
    country_data = dict_set "GLOBAL" (VList tracks') [].
Proof.
  unfold extract_global. intros H.
  apply bind_inv in H as (ref & s1 & Hloc & H).
  apply bind_inv in H as (id & s1' & Hid & H).
  apply lift_inv in Hid as [Hid ->].
  apply bind_inv in H as (tracks & s2 & Htracks & H).
  apply bind_inv in H as (name & s2' & Hname & H).
  apply lift_inv in Hname as [Hname ->].
  apply bind_inv in H as ([] & s3 & Hprint & H).
  unfold print in Hprint. injection Hprint as <-.
  apply bind_inv in H as (tracks' & s4 & Henrich & H).
  unfold ret in H. injection H as <- <-.
  exists ref, name, id, tracks, tracks', s1, s2. now repeat split.
Qed.

Lemma extract_country_inv {W} (api : SpotifyAPI W) (country : string)
  (country_data country_data' : dict) (s s' : run_state W) :
  extract_country api country country_data s = (Ok country_data', s') ->
  exists ref name id tracks tracks' s1 s2 s3,
    extract_top50_playlist api CATEGORY_ID (VStr country) s = (Ok ref, s1) /\
    getitem ref "name" = Ok name /\
    getitem ref "id" = Ok id /\
    extract_playlist_tracks api id (printed s1 name) = (Ok tracks, s2) /\
    add_tracks_information api tracks s2 = (Ok tracks', s3) /\
    country_data' = dict_set country (VList tracks') country_data /\
    s' = rested s3 2.
Proof.
  unfold extract_country. intros H.
  apply bind_inv in H as (ref & s1 & Hloc & H).
  apply bind_inv in H as (name & s1' & Hname & H).
  apply lift_inv in Hname as [Hname ->].
  apply bind_inv in H as ([] & s2 & Hprint & H).
  unfold print in Hprint. injection Hprint as <-.
  apply bind_inv in H as (id & s2' & Hid & H).
  apply lift_inv in Hid as [Hid ->].
  apply bind_inv in H as (tracks & s3 & Htracks & H).
  apply bind_inv in H as (tracks' & s4 & Henrich & H).
  cbv zeta in H.
  apply bind_inv in H as ([] & s5 & Hsleep & H).
  unfold sleep in Hsleep. injection Hsleep as <-.
  unfold ret in H. injection H as <- <-.
  exists ref, name, id, tracks, tracks', s1, s3, s4. now repeat split.
Qed.

Lemma extract_raw_data_inv {W} (api : SpotifyAPI W) (countries : list string)
  (s s' : run_state W) (country_data : dict) :
  extract_raw_data api countries s = (Ok country_data, s') ->
  exists d0 s0 s1,
    extract_global api s = (Ok d0, s0) /\
    extract_countries api countries d0 s0 = (Ok country_data, s1) /\
    s' = printed s1 (VStr banner).
Proof.
  unfold extract_raw_data. intros H.
  apply bind_inv in H as (d0 & s0 & Hglobal & H).
  apply bind_inv in H as (d1 & s1 & Hloop & H).
  apply bind_inv in H as ([] & s2 & Hprint & H).
  unfold print in Hprint. injection Hprint as <-.
  unfold ret in H. injection H as <- <-.
  exists d0, s0, s1. now repeat split.
Qed.

(** ** A successful extraction can be flattened *)

Lemma dict_lookup_key (d : dict) (k : string) :
  In k (map fst d) -> exists v, dict_lookup k d = Some v.
Proof.
  induction d as [|[k' v'] d IH]; simpl; intros Hin; [contradiction|].
  destruct (String.eqb_spec k' k) as [->|Hne]; [eauto|].
  destruct Hin as [Heq|Hin]; [contradiction|auto].
Qed.

Lemma resolves_key (track : value) (d : dict) (k : string) :
  getitem track k = dict_getitem d k -> In k (map fst d) ->
  resolves track [k] = true.
Proof.
  intros Hget Hin. unfold resolves. simpl. rewrite Hget.
  unfold dict_getitem. now destruct (dict_lookup_key d k Hin) as [v ->].
Qed.

Lemma resolves_nested_key (track : value) (outer inner : string) (d : dict) :
  getitem track outer = Ok (VDict d) -> In inner (map fst d) ->
  resolves track [outer; inner] = true.
Proof.
  intros Hget Hin. unfold resolves. simpl. rewrite Hget. simpl.
  unfold dict_getitem. now destruct (dict_lookup_key d inner Hin) as [v ->].
Qed.

Lemma built_enriched (item track track' : value) :
  built_from item track -> enriched_from track track' ->
  is_enriched_track track' = true.
Proof.
  intros (d & -> & Hkeys & _) (Hkeep & (f & Hf & Hfk) & (a & Ha & Hak)).
  unfold is_enriched_track. apply forallb_forall. intros path Hin.
  simpl in Hin.
  repeat (destruct Hin as [<-|Hin];
          [first [ apply resolves_key with (d := d);
                   [apply Hkeep; discriminate|rewrite Hkeys; simpl; tauto]
                 | apply resolves_nested_key with (d := f);
                   [exact Hf|rewrite Hfk; simpl; tauto]
                 | apply resolves_nested_key with (d := a);
                   [exact Ha|rewrite Hak; simpl; tauto] ]|]).
  contradiction.
Qed.

Lemma extract_playlist_tracks_built {W} (api : SpotifyAPI W)
  (playlist_id : value) (s s' : run_state W) (tracks : list value) :
  extract_playlist_tracks api playlist_id s = (Ok tracks, s') ->
  exists items, Forall2 built_from items tracks.
Proof.
  unfold extract_playlist_tracks. intros H.
  apply bind_inv in H as (raw & s1 & _ & H).
  apply bind_inv in H as (items & s2 & _ & H).
  apply join_items_built in H as (new & -> & Hnew). eauto.
Qed.

Lemma joined_chart {W} (api : SpotifyAPI W) (playlist_id : value)
  (s s1 s2 s3 : run_state W) (tracks tracks' : list value) :
  extract_playlist_tracks api playlist_id s = (Ok tracks, s1) ->
  add_tracks_information api tracks s2 = (Ok tracks', s3) ->
  is_chart (VList tracks') = true.
Proof.
  intros Hjoin Henrich.
  apply extract_playlist_tracks_built in Hjoin as (items & Hbuilt).
  apply add_tracks_information_enriched in Henrich.
  simpl. clear s s1 s2 s3 playlist_id.
  revert items Hbuilt.
  induction Henrich as [|t t' l l' Ht _ IH]; intros items Hbuilt;
    [reflexivity|].
  inversion Hbuilt as [|item ? items' ? Hitem Hrest]; subst.
  simpl. rewrite (built_enriched item t t' Hitem Ht). simpl. eauto.
Qed.

Lemma existsb_eqb_In (k : string) (l : list string) :
  existsb (String.eqb k) l = true <-> In k l.
Proof.
  rewrite existsb_exists. split.
  - intros (x & Hin & Heq). apply String.eqb_eq in Heq. now subst.
  - intros Hin. exists k. split; [assumption|apply String.eqb_refl].
Qed.

Lemma dict_set_keys_order (k : string) (v : value) (d : dict) :
  map fst (dict_set k v d)
  = if existsb (String.eqb k) (map fst d) then map fst d
    else map fst d ++ [k].
Proof.
  induction d as [|[k' v'] d IH]; simpl; [reflexivity|].
  rewrite (String.eqb_sym k k').
  destruct (String.eqb k' k); simpl; [reflexivity|].
  rewrite IH. now destruct (existsb (String.eqb k) (map fst d)).
Qed.

Lemma dict_set_charts_ok (k : string) (v : value) (d : dict) :
  is_chart v = true -> charts_ok d -> charts_ok (dict_set k v d).
Proof.
  intros Hv [Hnd Hall]. split.
  - rewrite dict_set_keys_order.
    destruct (existsb (String.eqb k) (map fst d)) eqn:E; [assumption|].
    apply NoDup_app; [assumption|repeat constructor; intros []|].
    intros x Hx [<-|[]].
    apply existsb_eqb_In in Hx. congruence.
  - clear Hnd. induction Hall as [|[k' v'] d Hkv Hrest IH]; simpl.
    + repeat constructor. exact Hv.
    + destruct (String.eqb k' k); constructor; assumption.
Qed.

Lemma NoDup_nodupb (l : list string) : NoDup l -> nodupb l = true.
Proof.
  induction 1 as [|x l Hx _ IH]; simpl; [reflexivity|].
  rewrite IH, andb_true_r. apply negb_true_iff.
  destruct (existsb (String.eqb x) l) eqn:E; [|reflexivity].
  apply existsb_eqb_In in E. contradiction.
Qed.

Lemma charts_ok_market_charts (d : dict) :
  charts_ok d -> is_market_charts d = true.
Proof.
  intros [Hnd Hall]. unfold is_market_charts.
  rewrite (NoDup_nodupb _ Hnd). simpl.
  apply forallb_forall. now apply Forall_forall.
Qed.

Lemma extract_countries_charts_ok {W} (api : SpotifyAPI W)
  (countries : list string) :
  forall (d d' : dict) (s s' : run_state W),
    extract_countries api countries d s = (Ok d', s') ->
    charts_ok d -> charts_ok d'.
Proof.
  induction countries as [|c rest IH]; intros d d' s s' Hrun Hok.
  - now injection Hrun as <- _.
  - simpl in Hrun. apply bind_inv in Hrun as (d1 & s1 & Hstep & Hrun).
    apply IH in Hrun; [assumption|].
    apply extract_country_inv in Hstep
      as (ref & name & id & tracks & tracks' & sa & sb & sc
          & _ & _ & _ & Hjoin & Henrich & -> & _).
    apply dict_set_charts_ok; [|assumption].
    eapply joined_chart; eassumption.
Qed.

(** X8: the two halves of the pipeline fit.  Whatever a successful
    [extract_raw_data] returns is a mapping from distinct market codes to
    lists of tracks that carry every field the flattener reads, so
    [format_extracted_data] flattens it without raising, into one row per
    extracted track. *)
Theorem extract_raw_data_flattens (W : Type) (api : SpotifyAPI W)
  (countries : list string) (s s' : run_state W) (country_data : dict) :
  extract_raw_data api countries s = (Ok country_data, s') ->
  is_market_charts country_data = true /\
  exists out,
    format_extracted_data country_data = Ok out /\
    forall name vals,
      In (name, vals) out -> length vals = total_tracks country_data.
Proof.
  intros Hrun.
  assert (is_market_charts country_data = true) as Hok.
  { apply extract_raw_data_inv in Hrun as (d0 & s0 & s1 & Hg & Hloop & _).
    apply charts_ok_market_charts.
    apply (extract_countries_charts_ok _ _ _ _ _ _ Hloop).
    apply extract_global_inv in Hg
      as (ref & name & id & tracks & tracks' & sa & sb
          & _ & _ & _ & Hjoin & Henrich & ->).
    apply dict_set_charts_ok; [|split; constructor].
    eapply joined_chart; eassumption. }
  split; [assumption|].
  exists (table_of (flat_rows country_data)).
  split; [now apply format_extracted_data_table|].
  intros name vals Hin.
  rewrite (table_of_column_length _ _ _ Hin). apply flat_rows_length.
Qed.

Lemma extract_raw_data_flattens_witness :
  exists country_data s',
    extract_raw_data sample_api ["DE"; "FR"] sample_start
    = (Ok country_data, s') /\
    is_market_charts country_data = true /\
    exists out,
      format_extracted_data country_data = Ok out /\
      forall name vals,
        In (name, vals) out -> length vals = total_tracks country_data.
Proof.
  destruct (extract_raw_data sample_api ["DE"; "FR"] sample_start)
    as [[country_data|e] s'] eqn:E.
  - exists country_data, s'. split; [reflexivity|].
    exact (extract_raw_data_flattens nat sample_api ["DE"; "FR"]
             sample_start s' country_data E).
  - vm_compute in E. discriminate.
Defined.

(** ** Keys of the extracted mapping *)

Lemma extract_countries_keys {W} (api : SpotifyAPI W)
  (countries : list string) :
  forall (d d' : dict) (s s' : run_state W),
    extract_countries api countries d s = (Ok d', s') ->
    map fst d' = insertion_order (map fst d) countries.
Proof.
  induction countries as [|c rest IH]; intros d d' s s' Hrun.
  - now injection Hrun as <- _.
  - simpl in Hrun. apply bind_inv in Hrun as (d1 & s1 & Hstep & Hrun).
    apply IH in Hrun. rewrite Hrun.
    apply extract_country_inv in Hstep
      as (ref & name & id & tracks & tracks' & sa & sb & sc
          & _ & _ & _ & _ & _ & -> & _).
    simpl. now rewrite dict_set_keys_order.
Qed.

Lemma insertion_order_fresh (keys : list string) :
  forall present,
    NoDup (present ++ keys) -> insertion_order present keys = present ++ keys.
Proof.
  induction keys as [|k rest IH]; intros present Hnd; simpl.
  - now rewrite app_nil_r.
  - destruct (existsb (String.eqb k) present) eqn:E.
    + exfalso. apply existsb_eqb_In in E.
      apply NoDup_remove_2 in Hnd. apply Hnd. apply in_or_app. now left.
    + rewrite IH; rewrite <- app_assoc; [reflexivity|assumption].
Qed.

(** X9: the extracted mapping lists ["GLOBAL"] first and then the
    requested markets in the order they were given.  A market given twice,
    or a market called ["GLOBAL"], does not get a second entry: it
    overwrites the earlier one in place. *)
Theorem extract_raw_data_keys (W : Type) (api : SpotifyAPI W)
  (countries : list string) (s s' : run_state W) (country_data : dict) :
  extract_raw_data api countries s = (Ok country_data, s') ->
  map fst country_data = insertion_order ["GLOBAL"] countries /\
  (NoDup ("GLOBAL" :: countries) ->
   map fst country_data = "GLOBAL" :: countries).
Proof.
  intros Hrun.
  apply extract_raw_data_inv in Hrun as (d0 & s0 & s1 & Hg & Hloop & _).
  apply extract_countries_keys in Hloop.
  apply extract_global_inv in Hg
    as (ref & name & id & tracks & tracks' & sa & sb & _ & _ & _ & _ & _ & ->).
  simpl in Hloop. split; [assumption|].
  intros Hnd. rewrite Hloop. now apply (insertion_order_fresh countries ["GLOBAL"]).
Qed.

Lemma extract_raw_data_keys_witness :
  exists country_data s',
    extract_raw_data sample_api ["DE"; "GLOBAL"; "DE"; "FR"] sample_start
    = (Ok country_data, s') /\
    map fst country_data = ["GLOBAL"; "DE"; "FR"].
Proof.
  destruct (extract_raw_data sample_api ["DE"; "GLOBAL"; "DE"; "FR"]
              sample_start) as [[country_data|e] s'] eqn:E.
  - exists country_data, s'. split; [reflexivity|].
    exact (proj1 (extract_raw_data_keys nat sample_api
                    ["DE"; "GLOBAL"; "DE"; "FR"] sample_start s'
                    country_data E)).
  - vm_compute in E. discriminate.
Defined.

(** ** Console and sleep *)

Lemma quiet_ret {W A} (a : A) : quiet (W := W) (ret a).
Proof. intros s r s' [= _ <-]. now split. Qed.

Lemma quiet_lift {W A} (r : result A) : quiet (W := W) (lift r).
Proof. intros s r' s' [= _ <-]. now split. Qed.

Lemma quiet_call {W} (f : W -> result value * W) : quiet (call f).
Proof.
  intros s r s'. unfold call. destruct (f (world s)).
  intros [= _ <-]. now split.
Qed.

Lemma quiet_bind {W A B} (m : M W A) (k : A -> M W B) :
  quiet m -> (forall a, quiet (k a)) -> quiet (bind m k).
Proof.
  intros Hm Hk s r s'. unfold bind.
  destruct (m s) as [[a|e] s1] eqn:E.
  - intros H. destruct (Hm _ _ _ E) as [Hc Hs].
    destruct (Hk a _ _ _ H) as [Hc' Hs']. split; congruence.
  - intros [= _ <-]. now apply (Hm _ _ _ E).
Qed.

Lemma quiet_extract_top50_global {W} (api : SpotifyAPI W) (category_id : value) :
  quiet (extract_top50_global api category_id).
Proof.
  apply quiet_bind; [apply quiet_call|intros; apply quiet_lift].
Qed.

Lemma quiet_extract_top50_playlist {W} (api : SpotifyAPI W)
  (category_id country_code : value) :
  quiet (extract_top50_playlist api category_id country_code).
Proof.
  apply quiet_bind; [apply quiet_call|intros; apply quiet_lift].
Qed.

Lemma quiet_add_followers {W} (api : SpotifyAPI W) (artists : list value) :
  forall d, quiet (add_followers api artists d).
Proof.
  induction artists as [|a rest IH]; intros d; simpl.
  - apply quiet_ret.
  - apply quiet_bind; [apply quiet_lift|intros].
    apply quiet_bind; [apply quiet_call|intros].
    apply quiet_bind; [apply quiet_lift|intros]. apply IH.
Qed.

Lemma quiet_join_items {W} (api : SpotifyAPI W) (items : list value) :
  forall acc, quiet (join_items api items acc).
Proof.
  induction items as [|item rest IH]; intros acc; simpl.
  - apply quiet_ret.
  - apply quiet_bind; [apply quiet_lift|intros].
    apply quiet_bind; [apply quiet_lift|intros].
    apply quiet_bind; [apply quiet_add_followers|intros]. apply IH.
Qed.

Lemma quiet_extract_playlist_tracks {W} (api : SpotifyAPI W)
  (playlist_id : value) :
  quiet (extract_playlist_tracks api playlist_id).
Proof.
  apply quiet_bind; [apply quiet_call|intros].
  apply quiet_bind; [apply quiet_lift|intros]. apply quiet_join_items.
Qed.

Lemma quiet_extract_track_features {W} (api : SpotifyAPI W) (track_id : value) :
  quiet (extract_track_features api track_id).
Proof.
  apply quiet_bind; [apply quiet_call|intros; apply quiet_lift].
Qed.

Lemma quiet_extract_track_audio_analysis {W} (api : SpotifyAPI W)
  (track_id : value) :
  quiet (extract_track_audio_analysis api track_id).
Proof.
  apply quiet_bind; [apply quiet_call|intros; apply quiet_lift].
Qed.

Lemma quiet_add_tracks_information {W} (api : SpotifyAPI W)
  (tracks : list value) :
  quiet (add_tracks_information api tracks).
Proof.
  induction tracks as [|track rest IH]; simpl.
  - apply quiet_ret.
  - apply quiet_bind; [apply quiet_lift|intros].
    apply quiet_bind; [apply quiet_extract_track_features|intros].
    apply quiet_bind; [apply quiet_lift|intros].
    apply quiet_bind; [apply quiet_lift|intros].
    apply quiet_bind; [apply quiet_extract_track_audio_analysis|intros].
    apply quiet_bind; [apply quiet_lift|intros].
    apply quiet_bind; [apply IH|intros]. apply quiet_ret.
Qed.

(** X10: printing and sleeping are the aggregator's alone.  The locators,
    the joiner, the two per-track extractions and the enrichment leave the
    console and the sleep counter untouched, whether they return or raise. *)
Theorem extraction_is_quiet (W : Type) (api : SpotifyAPI W)
  (category_id country_code playlist_id track_id : value)
  (tracks : list value) :
  quiet (extract_top50_global api category_id) /\
  quiet (extract_top50_playlist api category_id country_code) /\
  quiet (extract_playlist_tracks api playlist_id) /\
  quiet (extract_track_features api track_id) /\
  quiet (extract_track_audio_analysis api track_id) /\
  quiet (add_tracks_information api tracks).
Proof.
  split; [apply quiet_extract_top50_global|].
  split; [apply quiet_extract_top50_playlist|].
  split; [apply quiet_extract_playlist_tracks|].
  split; [apply quiet_extract_track_features|].
  split; [apply quiet_extract_track_audio_analysis|].
  apply quiet_add_tracks_information.
Qed.

Lemma extract_country_effects {W} (api : SpotifyAPI W) (country : string)
  (d d' : dict) (s s' : run_state W) :
  extract_country api country d s = (Ok d', s') ->
  slept s' = (slept s + 2)%Z /\
  exists name, console s' = console s ++ [name].
Proof.
  intros H.
  apply extract_country_inv in H
    as (ref & name & id & tracks & tracks' & s1 & s2 & s3
        & Hloc & _ & _ & Hjoin & Henrich & _ & ->).
  apply quiet_extract_top50_playlist in Hloc as [Hc1 Hs1].
  apply quiet_extract_playlist_tracks in Hjoin as [Hc2 Hs2].
  apply quiet_add_tracks_information in Henrich as [Hc3 Hs3].
  simpl in *. split.
  - congruence.
  - exists name. congruence.
Qed.

Lemma extract_countries_effects {W} (api : SpotifyAPI W)
  (countries : list string) :
  forall (d d' : dict) (s s' : run_state W),
    extract_countries api countries d s = (Ok d', s') ->
    slept s' = (slept s + 2 * Z.of_nat (length countries))%Z /\
    exists names,
      console s' = console s ++ names /\ length names = length countries.
Proof.
  induction countries as [|c rest IH]; intros d d' s s' Hrun.
  - injection Hrun as _ <-. split; [simpl; lia|].
    exists []. now rewrite app_nil_r.
  - simpl in Hrun. apply bind_inv in Hrun as (d1 & s1 & Hstep & Hrun).
    apply extract_country_effects in Hstep as [Hs (name & Hc)].
    apply IH in Hrun as [Hs' (names & Hc' & Hlen)]. split.
    + rewrite Hs', Hs. simpl length. lia.
    + exists (name :: names). rewrite Hc', Hc, <- app_assoc. simpl.
      split; [reflexivity|congruence].
Qed.

(** X11: a successful [extract_raw_data] has slept exactly two seconds per
    requested market and has printed one line for the global chart, one per
    requested market, and the closing banner last. *)
Theorem extract_raw_data_effects (W : Type) (api : SpotifyAPI W)
  (countries : list string) (s s' : run_state W) (country_data : dict) :
  extract_raw_data api countries s = (Ok country_data, s') ->
  slept s' = (slept s + 2 * Z.of_nat (length countries))%Z /\
  exists names,
    console s' = console s ++ names ++ [VStr banner] /\
    length names = S (length countries).
Proof.
  intros Hrun.
  apply extract_raw_data_inv in Hrun as (d0 & s0 & s1 & Hg & Hloop & ->).
  apply extract_countries_effects in Hloop as [Hs (names & Hc & Hlen)].
  apply extract_global_inv in Hg
    as (ref & name & id & tracks & tracks' & sa & sb
        & Hloc & _ & _ & Hjoin & Henrich & _).
  apply quiet_extract_top50_global in Hloc as [Hc1 Hs1].
  apply quiet_extract_playlist_tracks in Hjoin as [Hc2 Hs2].
  apply quiet_add_tracks_information in Henrich as [Hc3 Hs3].
  simpl in *. split.
  - congruence.
  - exists (name :: names). split; [|simpl; congruence].
    rewrite Hc, Hc3, Hc2, Hc1, <- !app_assoc. reflexivity.
Qed.

Lemma extract_raw_data_effects_witness :
  exists country_data s',
    extract_raw_data sample_api ["DE"; "FR"] sample_start
    = (Ok country_data, s') /\
    slept s' = 4%Z /\
    exists names,
      console s' = names ++ [VStr banner] /\ length names = 3%nat.
Proof.
  destruct (extract_raw_data sample_api ["DE"; "FR"] sample_start)
    as [[country_data|e] s'] eqn:E.
  - exists country_data, s'. split; [reflexivity|].
    exact (extract_raw_data_effects nat sample_api ["DE"; "FR"]
             sample_start s' country_data E).
  - vm_compute in E. discriminate.
Defined.

(** ** A catalog that cannot be reached *)

(** X12: no retry and no fallback.  When the listing request for the
    global chart raises, [extract_raw_data] raises the same exception
    after that single request, for market PL, having printed nothing and
    slept not at all. *)
Theorem extract_raw_data_request_error (W : Type) (api : SpotifyAPI W)
  (countries : list string) (s : run_state (W * list request)) (e : exn)
  (w' : W) :
  get_playlists_from_category api CATEGORY_ID (VStr "PL") (fst (world s))
    = (Err e, w') ->
  exists s',
    extract_raw_data (logged api) countries s = (Err e, s') /\
    requests s' = requests s ++ [ReqPlaylists CATEGORY_ID (VStr "PL")] /\
    console s' = console s /\
    slept s' = slept s.
Proof.
  intros Hcall. eexists. split.
  - unfold extract_raw_data. apply bind_err.
    unfold extract_global. apply bind_err.
    unfold extract_top50_global. apply bind_err.
    simpl. rewrite call_record, Hcall. reflexivity.
  - repeat split.
Qed.

Lemma extract_raw_data_request_error_witness :
  exists s',
    extract_raw_data (logged down_api) ["DE"]
      (Build_run_state (0%nat, []) [] 0)
    = (Err (RequestError "connection refused"), s') /\
    requests s' = [] ++ [ReqPlaylists CATEGORY_ID (VStr "PL")] /\
    console s' = [] /\
    slept s' = 0%Z.
Proof.
  apply (extract_raw_data_request_error nat down_api ["DE"]
           (Build_run_state (0%nat, []) [] 0)
           (RequestError "connection refused") 1%nat).
  reflexivity.
Defined.

(** ** A playlist without description *)

Lemma scan_top50_playlist_skip (item : value) (rest : list value) :
  is_playlist_item item = true -> market_hit item = false ->
  scan_top50_playlist (item :: rest) = scan_top50_playlist rest.
Proof.
  intros Hitem Hmiss.
  destruct (playlist_item_fields item Hitem) as (name & d & En & Ed & Ei & Ec).
  unfold market_hit, str_field in Hmiss. rewrite Ed in Hmiss.
  simpl. rewrite Ed. simpl.
  destruct (str_contains "most played tracks" d); simpl in *; [|reflexivity].
  destruct (str_contains "Global" d); simpl in *; [reflexivity|].
  destruct (str_contains "USA" d); simpl in *; [reflexivity|discriminate].
Qed.

(** X13: the per-market locator does not tolerate a playlist without a
    description.  If the first playlist that is not an ordinary miss has
    [None] for its description, the locator raises [TypeError], even when a
    matching playlist comes later in the listing. *)
Theorem extract_top50_playlist_null_description (W : Type)
  (api : SpotifyAPI W) (category_id country_code : value) (s : run_state W)
  (resp : value) (w' : W) (before after : list value) (item : value) :
  get_playlists_from_category api category_id country_code (world s)
    = (Ok resp, w') ->
  getpath resp ["playlists"; "items"] = Ok (VList (before ++ item :: after)) ->
  forallb is_playlist_item before = true ->
  forallb (fun other => negb (market_hit other)) before = true ->
  getitem item "description" = Ok VNone ->
  extract_top50_playlist api category_id country_code s
  = (Err TypeError, after_call s w').
Proof.
  intros Hcall Hitems Hwf Hmiss Hnull. unfold extract_top50_playlist.
  rewrite (bind_ok _ _ _ _ _ (call_eq _ _ _ _ Hcall)). unfold lift.
  simpl in Hitems.
  destruct (getitem resp "playlists") as [p|]; simpl in *; [|discriminate].
  destruct (getitem p "items") as [i|]; simpl in *; [|discriminate].
  injection Hitems as ->. simpl. f_equal.
  induction before as [|x before IH]; simpl in Hwf, Hmiss.
  - simpl. now rewrite Hnull.
  - apply andb_true_iff in Hwf as [Hx Hwf].
    apply andb_true_iff in Hmiss as [Hxm Hmiss].
    apply negb_true_iff in Hxm.
    change ((x :: before) ++ item :: after)
      with (x :: (before ++ item :: after)).
    rewrite scan_top50_playlist_skip by assumption. now apply IH.
Qed.

Lemma extract_top50_playlist_null_description_witness :
  extract_top50_playlist
    {| get_playlists_from_category := fun _ _ w =>
         (Ok (listing_of sample_null_description_items), S w);
       get_tracks_from_playlist := get_tracks_from_playlist sample_api;
       get_track_features := get_track_features sample_api;
       get_track_audio_analysis := get_track_audio_analysis sample_api;
       get_artist_info := get_artist_info sample_api |}
    CATEGORY_ID (VStr "DE") sample_start
  = (Err TypeError, after_call sample_start 1%nat).
Proof.
  apply (extract_top50_playlist_null_description nat _ CATEGORY_ID (VStr "DE")
           sample_start (listing_of sample_null_description_items) 1%nat []
           [ sample_item "Top 50 - Germany" "p3"
               "Your daily update of the most played tracks in Germany." ]
           (VDict [("name", VStr "Top Songs"); ("id", VStr "p0");
                   ("description", VNone)]));
    reflexivity.
Defined.

(** ** What a located playlist looks like *)

Lemma prefix_iff (needle hay : string) :
  String.prefix needle hay = true <->
  exists post, hay = (needle ++ post)%string.
Proof.
  revert hay. induction needle as [|a needle IH]; intros hay.
  - split; [intros _; now exists hay|intros _; now destruct hay].
  - destruct hay as [|b hay]; simpl.
    + split; [discriminate|intros [post H]; discriminate].
    + destruct (ascii_dec a b) as [->|Hne].
      * rewrite IH. split; intros [post H]; exists post; congruence.
      * split; [discriminate|intros [post H]; congruence].
Qed.

Lemma str_contains_iff (needle hay : string) :
  str_contains needle hay = true <->
  exists pre post, hay = (pre ++ needle ++ post)%string.
Proof.
  induction hay as [|c hay IH].
  - change (str_contains needle "")
      with (String.prefix needle "" || false).
    rewrite orb_false_r, prefix_iff. split.
    + intros [post H]. now exists EmptyString, post.
    + intros (pre & post & H). destruct pre; [now exists post|discriminate].
  - change (str_contains needle (String c hay))
      with (String.prefix needle (String c hay) || str_contains needle hay).
    rewrite orb_true_iff, prefix_iff, IH. split.
    + intros [[post H]|(pre & post & H)].
      * now exists EmptyString, post.
      * exists (String c pre), post. simpl. congruence.
    + intros (pre & post & H). destruct pre as [|c' pre]; simpl in H.
      * left. now exists post.
      * right. exists pre, post. congruence.
Qed.

Lemma str_contains_not (needle hay : string) :
  str_contains needle hay = false ->
  forall pre post, hay <> (pre ++ needle ++ post)%string.
Proof.
  intros H pre post Heq.
  assert (str_contains needle hay = true) as H'
      by (apply str_contains_iff; eauto).
  congruence.
Qed.

(** X14: what the global locator hands back is never anything but [None]
    or the name and id of a listed playlist whose name literally contains
    "Top 50" and "Świat". *)
Theorem extract_top50_global_result (W : Type) (api : SpotifyAPI W)
  (category_id : value) (s : run_state W) (resp : value) (w' : W)
  (items : list value) :
  get_playlists_from_category api category_id (VStr "PL") (world s)
    = (Ok resp, w') ->
  getpath resp ["playlists"; "items"] = Ok (VList items) ->
  forallb is_playlist_item items = true ->
  exists ref,
    extract_top50_global api category_id s = (Ok ref, after_call s w') /\
    (ref = VNone \/
     exists item name id pre post pre' post',
       In item items /\
       getitem item "name" = Ok (VStr name) /\
       getitem item "id" = Ok id /\
       ref = VDict [("name", VStr name); ("id", id)] /\
       name = (pre ++ "Top 50" ++ post)%string /\
       name = (pre' ++ "Świat" ++ post')%string).
Proof.
  intros Hcall Hitems Hwf.
  exists (located (find global_hit items)).
  split; [now apply extract_top50_global_run with (resp := resp)|].
  destruct (find global_hit items) as [item|] eqn:Ef; [right|now left].
  apply find_some in Ef as [Hin Hhit].
  rewrite forallb_forall in Hwf.
  destruct (playlist_item_fields item (Hwf _ Hin))
    as (name & d & En & Ed & Ei & Ec).
  unfold global_hit, str_field in Hhit. rewrite En in Hhit.
  apply andb_true_iff in Hhit as [Htop Hworld].
  apply str_contains_iff in Htop as (pre & post & Htop).
  apply str_contains_iff in Hworld as (pre' & post' & Hworld).
  exists item, name, (cell item ["id"]), pre, post, pre', post'.
  repeat split; try assumption.
  simpl. unfold playlist_ref. now rewrite Ec.
Qed.

Lemma extract_top50_global_result_witness :
  exists ref,
    extract_top50_global sample_api CATEGORY_ID sample_start
    = (Ok ref, after_call sample_start 1%nat) /\
    (ref = VNone \/
     exists item name id pre post pre' post',
       In item sample_global_items /\
       getitem item "name" = Ok (VStr name) /\
       getitem item "id" = Ok id /\
       ref = VDict [("name", VStr name); ("id", id)] /\
       name = (pre ++ "Top 50" ++ post)%string /\
       name = (pre' ++ "Świat" ++ post')%string).
Proof.
  apply (extract_top50_global_result nat sample_api CATEGORY_ID sample_start
           (listing_of sample_global_items) 1%nat sample_global_items);
    reflexivity.
Defined.

(** X15: what the per-market locator hands back is never anything but
    [None] or the name and id of a listed playlist whose description
    contains "most played tracks" and mentions neither "Global" nor "USA"
    anywhere. *)
Theorem extract_top50_playlist_result (W : Type) (api : SpotifyAPI W)
  (category_id country_code : value) (s : run_state W) (resp : value)
  (w' : W) (items : list value) :
  get_playlists_from_category api category_id country_code (world s)
    = (Ok resp, w') ->
  getpath resp ["playlists"; "items"] = Ok (VList items) ->
  forallb is_playlist_item items = true ->
  exists ref,
    extract_top50_playlist api category_id country_code s
    = (Ok ref, after_call s w') /\
    (ref = VNone \/
     exists item name id description pre post,
       In item items /\
       getitem item "name" = Ok (VStr name) /\
       getitem item "id" = Ok id /\
       getitem item "description" = Ok (VStr description) /\
       ref = VDict [("name", VStr name); ("id", id)] /\
       description = (pre ++ "most played tracks" ++ post)%string /\
       (forall pre' post',
           description <> (pre' ++ "Global" ++ post')%string) /\
       (forall pre' post',
           description <> (pre' ++ "USA" ++ post')%string)).
Proof.
  intros Hcall Hitems Hwf.
  exists (located (find market_hit items)).
  split; [now apply extract_top50_playlist_run with (resp := resp)|].
  destruct (find market_hit items) as [item|] eqn:Ef; [right|now left].
  apply find_some in Ef as [Hin Hhit].
  rewrite forallb_forall in Hwf.
  destruct (playlist_item_fields item (Hwf _ Hin))
    as (name & d & En & Ed & Ei & Ec).
  unfold market_hit, str_field in Hhit. rewrite Ed in Hhit.
  apply andb_true_iff in Hhit as [Hhit Husa].
  apply andb_true_iff in Hhit as [Hmost Hglobal].
  apply negb_true_iff in Husa, Hglobal.
  apply str_contains_iff in Hmost as (pre & post & Hmost).
  exists item, name, (cell item ["id"]), d, pre, post.
  repeat split; try assumption.
  - simpl. unfold playlist_ref. now rewrite Ec.
  - now apply str_contains_not.
  - now apply str_contains_not.
Qed.

Lemma extract_top50_playlist_result_witness :
  exists ref,
    extract_top50_playlist sample_api CATEGORY_ID (VStr "DE") sample_start
    = (Ok ref, after_call sample_start 1%nat) /\
    (ref = VNone \/
     exists item name id description pre post,
       In item sample_market_items /\
       getitem item "name" = Ok (VStr name) /\
       getitem item "id" = Ok id /\
       getitem item "description" = Ok (VStr description) /\
       ref = VDict [("name", VStr name); ("id", id)] /\
       description = (pre ++ "most played tracks" ++ post)%string /\
       (forall pre' post',
           description <> (pre' ++ "Global" ++ post')%string) /\
       (forall pre' post',
           description <> (pre' ++ "USA" ++ post')%string)).
Proof.
  apply (extract_top50_playlist_result nat sample_api CATEGORY_ID (VStr "DE")
           sample_start (listing_of sample_market_items) 1%nat
           sample_market_items); reflexivity.
Defined.

(** ** The audio features that are kept *)

(** X16: on a response that has the ten audio features,
    [extract_track_features] returns exactly these ten entries, in the
    order of the literal, each with the response's value; whatever else
    the response carries is dropped. *)
Theorem extract_track_features_projection (W : Type) (api : SpotifyAPI W)
  (track_id : value) (s : run_state W) (features : value) (w' : W) :
  get_track_features api track_id (world s) = (Ok features, w') ->
  forallb (resolves features) features_paths = true ->
  exists d,
    extract_track_features api track_id s = (Ok (VDict d), after_call s w') /\
    map fst d = feature_keys /\
    forall key, In key feature_keys -> dict_getitem d key = getitem features key.
Proof.
  intros Hcall H. cbn [forallb features_paths feature_keys map] in H.
  repeat (apply andb_true_iff in H; destruct H as [?H H]).
  unfold extract_track_features.
  rewrite (bind_ok _ _ _ _ _ (call_eq _ _ _ _ Hcall)). unfold lift.
  repeat match goal with
         | Hk : resolves features [?k] = true |- _ =>
             apply resolves_field in Hk
         end.
  eexists. split; [|split].
  - repeat match goal with
           | Hk : getitem features _ = Ok _ |- _ => rewrite Hk; clear Hk
           end.
    reflexivity.
  - reflexivity.
  - intros key Hin. simpl in Hin.
    repeat (destruct Hin as [<-|Hin]; [symmetry; assumption|]).
    contradiction.
Qed.

Lemma extract_track_features_projection_witness :
  exists d,
    extract_track_features sample_api (VStr "a") sample_start
    = (Ok (VDict d), after_call sample_start 1%nat) /\
    map fst d = feature_keys /\
    forall key,
      In key feature_keys -> dict_getitem d key = getitem sample_features key.
Proof.
  apply (extract_track_features_projection nat sample_api (VStr "a")
           sample_start sample_features 1%nat); reflexivity.
Defined.

(** ** An error body instead of a listing *)

(** X17: when the catalog answers the global listing request with a body
    that has no [playlists] entry (its error body, say), both locators
    raise [KeyError] for that key, and so does the whole run, after this
    one request. *)
Theorem extract_raw_data_error_payload (W : Type) (api : SpotifyAPI W)
  (countries : list string) (s : run_state W) (d : dict) (w' : W) :
  get_playlists_from_category api CATEGORY_ID (VStr "PL") (world s)
    = (Ok (VDict d), w') ->
  dict_lookup "playlists" d = None ->
  extract_top50_global api CATEGORY_ID s
    = (Err (KeyError "playlists"), after_call s w') /\
  extract_top50_playlist api CATEGORY_ID (VStr "PL") s
    = (Err (KeyError "playlists"), after_call s w') /\
  extract_raw_data api countries s
    = (Err (KeyError "playlists"), after_call s w').
Proof.
  intros Hcall Hnone.
  assert (extract_top50_global api CATEGORY_ID s
          = (Err (KeyError "playlists"), after_call s w')) as Hglobal.
  { unfold extract_top50_global.
    rewrite (bind_ok _ _ _ _ _ (call_eq _ _ _ _ Hcall)). unfold lift.
    simpl. unfold dict_getitem. now rewrite Hnone. }
  split; [assumption|]. split.
  - unfold extract_top50_playlist.
    rewrite (bind_ok _ _ _ _ _ (call_eq _ _ _ _ Hcall)). unfold lift.
    simpl. unfold dict_getitem. now rewrite Hnone.
  - unfold extract_raw_data. apply bind_err.
    unfold extract_global. now apply bind_err.
Qed.

Lemma extract_raw_data_error_payload_witness :
  extract_top50_global error_api CATEGORY_ID sample_start
    = (Err (KeyError "playlists"), after_call sample_start 1%nat) /\
  extract_top50_playlist error_api CATEGORY_ID (VStr "PL") sample_start
    = (Err (KeyError "playlists"), after_call sample_start 1%nat) /\
  extract_raw_data error_api ["DE"] sample_start
    = (Err (KeyError "playlists"), after_call sample_start 1%nat).
Proof.
  apply (extract_raw_data_error_payload nat error_api ["DE"] sample_start
           error_payload 1%nat); reflexivity.
Defined.

(** ** A playlist entry without a track *)

(** X18: one playlist entry whose [track] is [None] makes
    [extract_playlist_tracks] raise; the tracks joined before it are
    lost with it. *)
Theorem extract_playlist_tracks_null_track (W : Type) (api : SpotifyAPI W)
  (playlist_id : value) (s : run_state W) (raw : value) (w' : W)
  (items : list value) (item : value) :
  get_tracks_from_playlist api playlist_id (world s) = (Ok raw, w') ->
  getitem raw "items" = Ok (VList items) ->
  In item items ->
  getitem item "track" = Ok VNone ->
  exists e s', extract_playlist_tracks api playlist_id s = (Err e, s').
Proof.
  intros Hcall Hitems Hin Hnull. unfold extract_playlist_tracks.
  rewrite (bind_ok _ _ _ _ _ (call_eq _ _ _ _ Hcall)).
  unfold bind at 1. unfold lift at 1. rewrite Hitems. simpl.
  apply join_items_fails with (item := item); [assumption|].
  intros d artists s0 Hd. exfalso.
  unfold track_data_dict_of in Hd. rewrite Hnull in Hd. discriminate.
Qed.

Lemma extract_playlist_tracks_null_track_witness :
  exists e s',
    extract_playlist_tracks null_track_api (VStr "p2") sample_start
    = (Err e, s').
Proof.
  apply (extract_playlist_tracks_null_track nat null_track_api (VStr "p2")
           sample_start (VDict [("items", VList sample_null_track_items)])
           1%nat sample_null_track_items (VDict [("track", VNone)])).
  - reflexivity.
  - reflexivity.
  - simpl. tauto.
  - reflexivity.
Defined.

(** ** Failures that abort the run *)







